(** * Notes CRUD API: the handlers of [controllers] over the [models] package

    A shallow embedding of the five fiber handlers (CreateNoteHandler,
    FindNotes, UpdateNote, FindNoteById, DeleteNote), of the schemas and
    of [ValidateStruct], together with an executable model of the tables
    that gorm keeps for [models.Note].  *)

From Stdlib Require Import ZArith String Ascii.
From Stdlib Require Strings.Byte.
From stdpp Require Import gmap strings list fin_maps.

Local Open Scope string_scope.
Local Open Scope Z_scope.

(** ** Data model ([models/notes.model.go]) *)

(** [uuid.UUID] in its canonical text form (lower-case, 8-4-4-4-12), as
    the handlers print it; [time.Time] as an instant in nanoseconds, the
    resolution of [time.Now()]. *)
Definition UUID := string.
Definition Time := Z.

Record Note := mkNote {
  ID        : UUID;
  Title     : string;
  Content   : string;
  Category  : string;
  Published : bool;
  CreatedAt : Time;
  UpdatedAt : Time
}.

Record ErrorResponse := mkErrorResponse {
  Field : string;
  Tag   : string;
  Value : string
}.

Record CreateNoteSchema := mkCreateNoteSchema {
  cTitle     : string;
  cContent   : string;
  cCategory  : string;
  cPublished : bool
}.

(** [Published *bool]: [None] is the nil pointer. *)
Record UpdateNoteSchema := mkUpdateNoteSchema {
  uTitle     : string;
  uContent   : string;
  uCategory  : string;
  uPublished : option bool
}.

(** ** Errors

    [gorm.ErrRecordNotFound] is a sentinel compared by identity; every
    other error is known to the handlers only through its text. *)
Inductive error :=
| ErrRecordNotFound
| ErrBackend (msg : string).

Definition Error_text (e : error) : string :=
  match e with
  | ErrRecordNotFound => "record not found"
  | ErrBackend msg => msg
  end.

Global Instance error_eq_dec : EqDecision error.
Proof. solve_decision. Defined.

Global Instance Note_eq_dec : EqDecision Note.
Proof. solve_decision. Defined.

Global Instance ErrorResponse_eq_dec : EqDecision ErrorResponse.
Proof. solve_decision. Defined.

(** Go values that the handlers store under [interface{}]: in the
    [updates] map and in [fiber.Map]. *)
#[local] Set Warnings "-register-all".
Inductive value :=
| VString (s : string)
| VInt (n : Z)
| VPtrBool (b : bool)
| VTime (t : Time)
| VError (e : error)
| VNote (n : Note)
| VNotes (ns : list Note)
| VMap (m : gmap string value).
#[local] Set Warnings "register-all".

(** ** Go runtime: [int], [strings.Contains], [strconv.Atoi] *)

(** [int] is 64 bits wide; arithmetic wraps around. *)
Definition MaxInt : Z := 2 ^ 63 - 1.
Definition MinInt : Z := - 2 ^ 63.
Definition wrap64 (z : Z) : Z := (z + 2 ^ 63) mod 2 ^ 64 - 2 ^ 63.
Definition int_sub (a b : Z) : Z := wrap64 (a - b).
Definition int_mul (a b : Z) : Z := wrap64 (a * b).

(** [strings.Contains s substr]: [substr] occurs somewhere within [s]. *)
Fixpoint Contains (s substr : string) : bool :=
  String.prefix substr s ||
  match s with
  | EmptyString => false
  | String _ s' => Contains s' substr
  end.


Inductive NumError := ErrSyntax | ErrRange.

(** A decimal digit and its value: [ch -= '0'; ch > 9] fails. *)
Definition digit (a : ascii) : option Z :=
  let n := Z.of_N (N_of_ascii a) in
  if (48 <=? n) && (n <=? 57) then Some (n - 48) else None.

Definition maxUint64 : Z := 2 ^ 64 - 1.

(** The loop of [strconv.ParseUint(s, 10, 64)]: byte by byte; a byte that
    is not a digit is a syntax error with value 0, and a digit at which
    the value leaves [uint64] is a range error with value [maxUint64],
    returned at once, whatever follows. *)
Fixpoint ParseUint_loop (s : string) (n : Z) : Z * option NumError :=
  match s with
  | EmptyString => (n, None)
  | String c s' =>
      match digit c with
      | None => (0, Some ErrSyntax)
      | Some d =>
          if maxUint64 / 10 + 1 <=? n then (maxUint64, Some ErrRange)
          else
            let n1 := n * 10 + d in
            if maxUint64 <? n1 then (maxUint64, Some ErrRange)
            else ParseUint_loop s' n1
      end
  end.

Definition ParseUint (s : string) : Z * option NumError :=
  match s with
  | EmptyString => (0, Some ErrSyntax)
  | _ => ParseUint_loop s 0
  end.

(** [strconv.ParseInt(s, 10, 0)] after its sign has been picked off: a
    syntax error of [ParseUint] gives 0; otherwise the magnitude is
    checked against [1 << 63] and converted. *)
Definition ParseInt_signed (neg : bool) (s : string) : Z * option NumError :=
  let un := fst (ParseUint s) in
  match snd (ParseUint s) with
  | Some ErrSyntax => (0, Some ErrSyntax)
  | _ =>
      if negb neg && (2 ^ 63 <=? un) then (2 ^ 63 - 1, Some ErrRange)
      else if neg && (2 ^ 63 <? un) then (- 2 ^ 63, Some ErrRange)
      else (if neg then wrap64 (- wrap64 un) else wrap64 un, None)
  end.

Definition ParseInt (s : string) : Z * option NumError :=
  match s with
  | EmptyString => (0, Some ErrSyntax)
  | String c r =>
      if Ascii.eqb c "+" then ParseInt_signed false r
      else if Ascii.eqb c "-" then ParseInt_signed true r
      else ParseInt_signed false s
  end.

(** The loop of the fast path of [strconv.Atoi]; [None] is its syntax
    error. *)
Fixpoint Atoi_fast (s : string) (n : Z) : option Z :=
  match s with
  | EmptyString => Some n
  | String ch s' =>
      match digit ch with
      | Some d => Atoi_fast s' (n * 10 + d)
      | None => None
      end
  end.

(** [strconv.Atoi] on a 64-bit platform: the fast path for 1 to 18
    bytes, [ParseInt] otherwise. *)
Definition Atoi (s : string) : Z * option NumError :=
  let sLen := String.length s in
  if (0 <? sLen)%nat && (sLen <? 19)%nat then
    match s with
    | EmptyString => (0, Some ErrSyntax)
    | String c r =>
        let sign := Ascii.eqb c "-" || Ascii.eqb c "+" in
        let body := if sign then r else s in
        if sign && (String.length body <? 1)%nat then (0, Some ErrSyntax)
        else
          match Atoi_fast body 0 with
          | None => (0, Some ErrSyntax)
          | Some n => (if Ascii.eqb c "-" then - n else n, None)
          end
    end
  else ParseInt s.

(** A decimal numeral: an optional sign, then one digit or more. *)
Definition is_digit (a : ascii) : Prop :=
  48 ≤ Z.of_N (N_of_ascii a) ≤ 57.

Fixpoint all_digits (s : string) : Prop :=
  match s with
  | EmptyString => True
  | String a s' => is_digit a ∧ all_digits s'
  end.

Definition numeric (s : string) : Prop :=
  ∃ sign ds, s = sign +:+ ds
             ∧ (sign = "" ∨ sign = "+" ∨ sign = "-")
             ∧ ds ≠ ""
             ∧ all_digits ds.

(** The value of a run of digits read after [n]. *)
Fixpoint accum (n : Z) (ds : string) : Z :=
  match ds with
  | EmptyString => n
  | String c ds' => accum (n * 10 + default 0 (digit c)) ds'
  end.

(** A text without its sign, and whether the sign is a minus. *)
Definition unsigned (v : string) : string :=
  match v with
  | EmptyString => v
  | String c r => if Ascii.eqb c "+" || Ascii.eqb c "-" then r else v
  end.

Definition negative (v : string) : bool :=
  match v with
  | EmptyString => false
  | String c _ => Ascii.eqb c "-"
  end.

(** After its sign, the text starts with a run of digits whose value is
    beyond [uint64]. *)
Definition overflowing (v : string) : Prop :=
  ∃ ds rest, unsigned v = ds +:+ rest ∧ all_digits ds ∧ maxUint64 < accum 0 ds.

(** ** fiber: request context and responses *)

Definition StatusOK : Z := 200.
Definition StatusCreated : Z := 201.
Definition StatusNoContent : Z := 204.
Definition StatusBadRequest : Z := 400.
Definition StatusNotFound : Z := 404.
Definition StatusConflict : Z := 409.
Definition StatusBadGateway : Z := 502.

(** What a handler reads from [*fiber.Ctx]: the route parameters, the
    query string and the outcome of [c.BodyParser(&payload)], either the
    text of the decode error or the pointer left in [payload] ([None] is
    nil, which is what the JSON body [null] leaves). *)
Record Ctx (T : Type) := mkCtx {
  route   : gmap string string;
  queries : gmap string string;
  body    : string + option T
}.
Arguments mkCtx {T} _ _ _.
Arguments route {T} _.
Arguments queries {T} _.
Arguments body {T} _.

Definition Params {T} (c : Ctx T) (key : string) : string :=
  default "" (route c !! key).

(** [c.Query(key, defaultValue)]: the default stands in for a parameter
    that is absent or empty. *)
Definition Query {T} (c : Ctx T) (key defaultValue : string) : string :=
  let v := default "" (queries c !! key) in
  if decide (v = "") then defaultValue else v.

Definition BodyParser {T} (c : Ctx T) : string + option T := body c.

Inductive Body :=
| JSONMap (m : gmap string value)
| JSONErrors (errors : list ErrorResponse)
| Empty.

Record Response := mkResponse {
  Status  : Z;
  Payload : Body
}.

(** A handler either sends a response or panics (nil dereference). *)
Inductive Outcome :=
| Sent (r : Response)
| Panic.

Definition JSON (status : Z) (m : gmap string value) : Outcome :=
  Sent (mkResponse status (JSONMap m)).

Definition SendStatus (status : Z) : Outcome :=
  Sent (mkResponse status Empty).

(** ** Validation ([models.ValidateStruct]) *)

(** The validator reads a struct by reflection: its name, and for each
    field the name, the [validate] tag and the value. *)
Inductive FieldValue :=
| FString (s : string)
| FBool (b : bool)
| FPtrBool (p : option bool).

Record FieldInfo (T : Type) := mkField {
  field_name : string;
  field_tag  : option string;
  field_get  : T -> FieldValue
}.
Arguments mkField {T} _ _ _.
Arguments field_name {T} _.
Arguments field_tag {T} _.
Arguments field_get {T} _ _.

Class Struct (T : Type) := {
  StructName : string;
  Fields     : list (FieldInfo T)
}.

Global Instance CreateNoteSchema_struct : Struct CreateNoteSchema := {|
  StructName := "CreateNoteSchema";
  Fields :=
    [ mkField "Title" (Some "required") (fun p => FString (cTitle p));
      mkField "Content" (Some "required") (fun p => FString (cContent p));
      mkField "Category" None (fun p => FString (cCategory p));
      mkField "Published" None (fun p => FBool (cPublished p)) ]
|}.

Global Instance UpdateNoteSchema_struct : Struct UpdateNoteSchema := {|
  StructName := "UpdateNoteSchema";
  Fields :=
    [ mkField "Title" None (fun p => FString (uTitle p));
      mkField "Content" None (fun p => FString (uContent p));
      mkField "Category" None (fun p => FString (uCategory p));
      mkField "Published" None (fun p => FPtrBool (uPublished p)) ]
|}.

(** The [required] rule: the value differs from the zero value of its
    type. *)
Definition hasValue (v : FieldValue) : bool :=
  match v with
  | FString s => negb (String.eqb s "")
  | FBool b => b
  | FPtrBool p => match p with Some _ => true | None => false end
  end.

Definition validate_field {T} `{Struct T} (payload : T) (f : FieldInfo T)
  : option ErrorResponse :=
  match field_tag f with
  | Some tag =>
      if String.eqb tag "required" && negb (hasValue (field_get f payload))
      then Some {| Field := StructName +:+ "." +:+ field_name f;
                   Tag := tag;
                   Value := "" |}
      else None
  | None => None
  end.

(** [ValidateStruct[T]]: the violations in field order, nil when there are
    none.  [T] is instantiated with a pointer type by the caller; on a nil
    pointer the validator returns an error that is not a
    [ValidationErrors], and the type assertion panics ([None]). *)
Definition ValidateStruct {T} `{Struct T} (payload : option T)
  : option (list ErrorResponse) :=
  match payload with
  | None => None
  | Some p => Some (omap (validate_field p) Fields)
  end.

(** ** The gorm handle ([initializers.DB]) *)

(** What the handlers read from the [*gorm.DB] that a call returns. *)
Record Result := mkResult {
  Error        : option error;
  RowsAffected : Z
}.

(** The five calls the handlers make.  Each one takes the state of the
    database and returns the new state, the result and, where gorm writes
    through a pointer, what it left there. *)
Class Gorm (DB : Type) := {
  (** [DB.Create(&newNote)] *)
  Create  : Note -> DB -> DB * Result * Note;
  (** [DB.Limit(limit).Offset(offset).Find(&notes)] *)
  Find    : Z -> Z -> DB -> DB * Result * list Note;
  (** [DB.First(&note, "id = ?", noteId)] *)
  First   : string -> DB -> DB * Result * Note;
  (** [DB.Model(&note).Updates(updates)] *)
  Updates : Note -> gmap string value -> DB -> DB * Result * Note;
  (** [DB.Delete(&models.Note{}, "id = ?", noteId)] *)
  Delete  : string -> DB -> DB * Result
}.

(** The zero values [uuid.Nil] and [models.Note{}]. *)
Definition uuid_Nil : UUID := "00000000-0000-0000-0000-000000000000".
Definition Note_zero : Note := mkNote uuid_Nil "" "" "" false 0 0.

(** ** The handlers ([controllers]) *)

(** The entity that CreateNoteHandler builds from the payload; [ID] is
    not set. *)
Definition newNote_of (payload : CreateNoteSchema) (now : Time) : Note :=
  {| ID := uuid_Nil;
     Title := cTitle payload;
     Content := cContent payload;
     Category := cCategory payload;
     Published := cPublished payload;
     CreatedAt := now;
     UpdatedAt := now |}.

Section Handlers.
Context {DB : Type} `{Gorm DB}.

(** [now] is the reading of [time.Now()]. *)
Definition CreateNoteHandler (c : Ctx CreateNoteSchema) (now : Time) (db : DB)
  : DB * Outcome :=
  match BodyParser c with
  | inl err =>
      (db, JSON StatusBadRequest
             {[ "status" := VString "fail"; "message" := VString err ]})
  | inr payload =>
      match ValidateStruct payload with
      | None => (db, Panic)
      | Some ((_ :: _) as errors) =>
          (db, Sent (mkResponse StatusBadRequest (JSONErrors errors)))
      | Some [] =>
          match payload with
          | None => (db, Panic)
          | Some payload =>
              let newNote := newNote_of payload now in
              let '(db, result, newNote) := Create newNote db in
              match Error result with
              | Some e =>
                  if Contains (Error_text e) "duplicate key value violates unique"
                  then
                    (db, JSON StatusConflict
                           {[ "status" := VString "fail";
                              "message" := VString "Title already exists, please use another title" ]})
                  else
                    (db, JSON StatusBadGateway
                           {[ "status" := VString "error";
                              "message" := VString (Error_text e) ]})
              | None =>
                  (db, JSON StatusCreated
                         {[ "status" := VString "success";
                            "data" := VMap {[ "note" := VNote newNote ]} ]})
              end
          end
      end
  end.

Definition FindNotes {T} (c : Ctx T) (db : DB) : DB * Outcome :=
  let page := Query c "page" "1" in
  let limit := Query c "limit" "10" in
  let intPage := fst (Atoi page) in
  let intLimit := fst (Atoi limit) in
  let offset := int_mul (int_sub intPage 1) intLimit in
  let '(db, results, notes) := Find intLimit offset db in
  match Error results with
  | Some e =>
      (db, JSON StatusBadGateway
             {[ "status" := VString "error"; "message" := VError e ]})
  | None =>
      (db, JSON StatusOK
             {[ "status" := VString "success";
                "results" := VInt (Z.of_nat (length notes));
                "notes" := VNotes notes ]})
  end.

(** The [updates] map that UpdateNote builds from the payload. *)
Definition updates_of (payload : UpdateNoteSchema) (now : Time)
  : gmap string value :=
  let updates : gmap string value := ∅ in
  let updates :=
    if decide (uTitle payload ≠ "")
    then <[ "title" := VString (uTitle payload) ]> updates else updates in
  let updates :=
    if decide (uCategory payload ≠ "")
    then <[ "category" := VString (uCategory payload) ]> updates else updates in
  let updates :=
    if decide (uContent payload ≠ "")
    then <[ "content" := VString (uContent payload) ]> updates else updates in
  let updates :=
    match uPublished payload with
    | Some b => <[ "published" := VPtrBool b ]> updates
    | None => updates
    end in
  <[ "updated_at" := VTime now ]> updates.

Definition UpdateNote (c : Ctx UpdateNoteSchema) (now : Time) (db : DB)
  : DB * Outcome :=
  let noteId := Params c "noteId" in
  match BodyParser c with
  | inl err =>
      (db, JSON StatusBadRequest
             {[ "status" := VString "fail"; "message" := VString err ]})
  | inr payload =>
      let '(db, result, note) := First noteId db in
      match Error result with
      | Some err =>
          if decide (err = ErrRecordNotFound)
          then
            (db, JSON StatusNotFound
                   {[ "status" := VString "fail";
                      "message" := VString "No note with that ID exists" ]})
          else
            (db, JSON StatusBadGateway
                   {[ "status" := VString "fail";
                      "message" := VString (Error_text err) ]})
      | None =>
          match payload with
          | None => (db, Panic)
          | Some payload =>
              let updates := updates_of payload now in
              let '(db, _, note) := Updates note updates db in
              (db, JSON StatusOK
                     {[ "status" := VString "success";
                        "data" := VMap {[ "note" := VNote note ]} ]})
          end
      end
  end.

Definition FindNoteById {T} (c : Ctx T) (db : DB) : DB * Outcome :=
  let noteId := Params c "noteId" in
  let '(db, result, note) := First noteId db in
  match Error result with
  | Some err =>
      if decide (err = ErrRecordNotFound)
      then
        (db, JSON StatusNotFound
               {[ "status" := VString "fail";
                  "message" := VString "No note with that ID exists" ]})
      else
        (db, JSON StatusBadGateway
               {[ "status" := VString "fail";
                  "message" := VString (Error_text err) ]})
  | None =>
      (db, JSON StatusOK
             {[ "status" := VString "success";
                "data" := VMap {[ "note" := VNote note ]} ]})
  end.

Definition DeleteNote {T} (c : Ctx T) (db : DB) : DB * Outcome :=
  let noteId := Params c "noteId" in
  let '(db, result) := Delete noteId db in
  if RowsAffected result =? 0 then
    (db, JSON StatusNotFound
           {[ "status" := VString "fail";
              "message" := VString "No note with that ID exists" ]})
  else
    match Error result with
    | Some e =>
        (db, JSON StatusBadGateway
               {[ "status" := VString "error"; "message" := VError e ]})
    | None => (db, SendStatus StatusNoContent)
    end.

End Handlers.


(** ** PostgreSQL: the text of a uuid

    The [id] column has type [uuid].  The handlers send the route
    parameter as text, and the server reads it with [uuid_in]: two
    hexadecimal digits per byte in either case, an optional hyphen after
    every second byte, optional braces around the whole.  What it prints,
    and what [uuid.UUID] prints in Go, is the lower-case form with
    hyphens after bytes 4, 6, 8 and 10. *)

Definition xdigit (a : ascii) : option N :=
  let n := N_of_ascii a in
  if ((48 <=? n) && (n <=? 57))%N then Some (n - 48)%N
  else if ((97 <=? n) && (n <=? 102))%N then Some (n - 87)%N
  else if ((65 <=? n) && (n <=? 70))%N then Some (n - 55)%N
  else None.

Definition hexchar (n : N) : ascii :=
  ascii_of_N (if (n <? 10)%N then (48 + n)%N else (87 + n)%N).

Definition hex (b : Byte.byte) : string :=
  String (hexchar (Strings.Byte.to_N b / 16))
         (String (hexchar (Strings.Byte.to_N b mod 16)) "").

(** The loop of [string_to_uuid]: [remaining] bytes still to read, the
    next one at index [i]. *)
Fixpoint uuid_bytes (remaining i : nat) (src : string)
  : option (list Byte.byte * string) :=
  match remaining with
  | O => Some ([], src)
  | S k =>
      match src with
      | String a (String b src) =>
          match xdigit a, xdigit b with
          | Some h, Some l =>
              let src :=
                match src with
                | String c r =>
                    if Ascii.eqb c "-" && Nat.odd i && (i <? 15)%nat
                    then r else src
                | EmptyString => src
                end in
              match uuid_bytes k (S i) src with
              | Some (bs, rest) =>
                  Some (default Byte.x00 (Strings.Byte.of_N (16 * h + l)) :: bs,
                        rest)
              | None => None
              end
          | _, _ => None
          end
      | _ => None
      end
  end.

Definition string_to_uuid (source : string) : option (list Byte.byte) :=
  let braces :=
    match source with
    | String c _ => Ascii.eqb c "{"
    | EmptyString => false
    end in
  let src :=
    match source with
    | String c r => if Ascii.eqb c "{" then r else source
    | EmptyString => source
    end in
  match uuid_bytes 16 0 src with
  | Some (bs, rest) =>
      if braces then
        match rest with
        | String c EmptyString => if Ascii.eqb c "}" then Some bs else None
        | _ => None
        end
      else
        match rest with
        | EmptyString => Some bs
        | _ => None
        end
  | None => None
  end.

Fixpoint uuid_out_from (i : nat) (bs : list Byte.byte) : string :=
  match bs with
  | [] => ""
  | b :: bs =>
      hex b +:+
      ((match i with
        | 3%nat | 5%nat | 7%nat | 9%nat => "-"
        | _ => ""
        end) +:+ uuid_out_from (S i) bs)
  end.

Definition uuid_out (bs : list Byte.byte) : UUID := uuid_out_from 0 bs.

(** The id that a text denotes, if it denotes one. *)
Definition uuid_in (text : string) : option UUID :=
  uuid_out <$> string_to_uuid text.

(** ** The notes table

    An executable model of what gorm and PostgreSQL keep for
    [models.Note], as the tags of the struct declare it: [id] is the
    primary key, of type [uuid], with default [uuid_generate_v4()];
    [title] carries a unique index; the two timestamps are kept to the
    microsecond.

    The backend may fail at any call; [faults] is the script of those
    failures, one entry per call still to come (an exhausted script means
    a healthy backend).  gorm runs a create, an update and a delete in a
    transaction of their own, so such a call can fail before it begins,
    at the statement, or at the commit; a query has the statement only.
    [uuids] is the sequence of bytes that [uuid_generate_v4()] draws.
    [log] records the statements that reach the server, as the logger set
    up by [ConnectDB] prints them.

    [rows] lists the table in the order in which the server returns it
    to a query without ORDER BY, taken here to be the order of insertion
    with an updated row staying in its place; the [ID] of a row is the
    text that the server prints for its [uuid].  The strings of a
    payload are taken to be texts that a [varchar] column accepts (the
    server refuses a zero byte). *)

Module MemStore.

Inductive Fault :=
| AtBegin (msg : string)
| AtExec (msg : string)
| AtCommit (msg : string).

Definition fault_text (f : Fault) : string :=
  match f with
  | AtBegin msg | AtExec msg | AtCommit msg => msg
  end.

(** LIMIT and OFFSET are [None] when gorm leaves the clause out. *)
Inductive Statement :=
| Insert (n : Note)
| SelectPage (limit offset : option Z)
| SelectFirst (noteId : string)
| Update (id : UUID) (updates : gmap string value)
| DeleteWhere (noteId : string).

Record DB := mkDB {
  rows   : list Note;
  faults : list (option Fault);
  uuids  : nat -> nat -> Byte.byte;
  drawn  : nat;
  log    : list Statement
}.

Definition with_rows (rs : list Note) (db : DB) : DB :=
  mkDB rs (faults db) (uuids db) (drawn db) (log db).

Definition healthy (db : DB) : Prop := faults db = [].

(** A call takes the next entry of the script. *)
Definition next_fault (db : DB) : option Fault * DB :=
  (mjoin (head (faults db)),
   mkDB (rows db) (tail (faults db)) (uuids db) (drawn db) (log db)).

(** A statement reaches the server. *)
Definition sent (st : Statement) (db : DB) : DB :=
  mkDB (rows db) (faults db) (uuids db) (drawn db) (log db ++ [st]).

Definition draw (db : DB) : UUID * DB :=
  (uuid_out (uuids db (drawn db) <$> seq 0 16),
   mkDB (rows db) (faults db) (uuids db) (S (drawn db)) (log db)).

Definition failed (msg : string) : Result :=
  mkResult (Some (ErrBackend msg)) 0.

Definition affected (n : nat) : Result :=
  mkResult None (Z.of_nat n).

(** The commit failed after the statement had affected [n] rows. *)
Definition uncommitted (msg : string) (n : nat) : Result :=
  mkResult (Some (ErrBackend msg)) (Z.of_nat n).

Definition title_taken : string :=
  "ERROR: duplicate key value violates unique constraint idx_notes_title (SQLSTATE 23505)".
Definition id_taken : string :=
  "ERROR: duplicate key value violates unique constraint notes_pkey (SQLSTATE 23505)".
Definition missing_where : string := "WHERE conditions required".
Definition not_a_uuid (text : string) : string :=
  "ERROR: invalid input syntax for type uuid: " +:+ text +:+ " (SQLSTATE 22P02)".

(** A [timestamptz] keeps microseconds: the driver sends a time as the
    whole microseconds since the epoch and drops the rest. *)
Definition micro (t : Time) : Time := t / 1000 * 1000.

(** The row that an insert of [n] leaves in the table. *)
Definition stored (n : Note) : Note :=
  mkNote (ID n) (Title n) (Content n) (Category n) (Published n)
         (micro (CreatedAt n)) (micro (UpdatedAt n)).

(** INSERT ... RETURNING: the handlers leave [ID] at its zero value, so
    the column default fills it and gorm copies it back into the struct;
    the row is refused when its title or its id is already present. *)
Definition Create (n : Note) (db : DB) : DB * Result * Note :=
  let '(fault, db) := next_fault db in
  match fault with
  | Some (AtBegin msg) => (db, failed msg, n)
  | Some (AtExec msg) => (sent (Insert n) db, failed msg, n)
  | _ =>
      let db := sent (Insert n) db in
      let '(id, db) := draw db in
      let n' := mkNote id (Title n) (Content n) (Category n) (Published n)
                       (CreatedAt n) (UpdatedAt n) in
      if decide (Title n' ∈ Title <$> rows db) then (db, failed title_taken, n)
      else if decide (id ∈ ID <$> rows db) then (db, failed id_taken, n)
      else
        match fault with
        | Some f => (db, uncommitted (fault_text f) 1, n')
        | None => (with_rows (rows db ++ [stored n']) db, affected 1, n')
        end
  end.

(** SELECT ... LIMIT ... OFFSET ...: gorm writes LIMIT for a limit that
    is not negative and OFFSET for an offset above zero. *)
Definition limit_clause (limit : Z) : option Z :=
  if 0 <=? limit then Some limit else None.

Definition offset_clause (offset : Z) : option Z :=
  if 0 <? offset then Some offset else None.

Definition page (limit offset : Z) (rs : list Note) : list Note :=
  let rs := if 0 <? offset then drop (Z.to_nat offset) rs else rs in
  if 0 <=? limit then take (Z.to_nat limit) rs else rs.

Definition Find (limit offset : Z) (db : DB) : DB * Result * list Note :=
  let '(fault, db) := next_fault db in
  let db := sent (SelectPage (limit_clause limit) (offset_clause offset)) db in
  match fault with
  | Some f => (db, failed (fault_text f), [])
  | None =>
      let notes := page limit offset (rows db) in
      (db, affected (length notes), notes)
  end.

(** SELECT ... WHERE id = $1 ... LIMIT 1, the parameter sent as text. *)
Definition First (noteId : string) (db : DB) : DB * Result * Note :=
  let '(fault, db) := next_fault db in
  let db := sent (SelectFirst noteId) db in
  match fault with
  | Some f => (db, failed (fault_text f), Note_zero)
  | None =>
      match uuid_in noteId with
      | None => (db, failed (not_a_uuid noteId), Note_zero)
      | Some id =>
          match head (filter (fun r => ID r = id) (rows db)) with
          | Some r => (db, affected 1, r)
          | None => (db, mkResult (Some ErrRecordNotFound) 0, Note_zero)
          end
      end
  end.

(** The columns of [updates] written over a note; [precision] is what
    becomes of a time: nothing in the struct, [micro] in the table. *)
Definition assign (precision : Time -> Time) (updates : gmap string value)
           (r : Note) : Note :=
  {| ID := ID r;
     Title := match updates !! "title" with
              | Some (VString s) => s | _ => Title r end;
     Content := match updates !! "content" with
                | Some (VString s) => s | _ => Content r end;
     Category := match updates !! "category" with
                 | Some (VString s) => s | _ => Category r end;
     Published := match updates !! "published" with
                  | Some (VPtrBool b) => b | _ => Published r end;
     CreatedAt := CreatedAt r;
     UpdatedAt := match updates !! "updated_at" with
                  | Some (VTime t) => precision t | _ => UpdatedAt r end |}.

(** The new title, if any, belongs to a row other than [id]. *)
Definition title_clash (id : UUID) (updates : gmap string value)
           (rs : list Note) : Prop :=
  match updates !! "title" with
  | Some (VString t) => Exists (fun r => ID r ≠ id ∧ Title r = t) rs
  | _ => False
  end.

Global Instance title_clash_dec id updates rs :
  Decision (title_clash id updates rs).
Proof.
  unfold title_clash.
  destruct (updates !! "title") as [[]|]; apply _.
Defined.

(** UPDATE ... WHERE id = <the model's primary key>.  Once the
    transaction has begun, gorm copies the values of the map into the
    model while it builds the statement, so the caller's struct carries
    them whatever the server answers; a primary key at its zero value
    gives no WHERE, and gorm refuses the statement without sending it;
    the statement itself changes all the named columns or, when it is
    refused or not committed, none. *)
Definition Updates (model : Note) (updates : gmap string value) (db : DB)
  : DB * Result * Note :=
  let '(fault, db) := next_fault db in
  let model' := assign id updates model in
  match fault with
  | Some (AtBegin msg) => (db, failed msg, model)
  | _ =>
      if decide (ID model = uuid_Nil) then (db, failed missing_where, model')
      else
        match fault with
        | Some (AtExec msg) =>
            (sent (Update (ID model) updates) db, failed msg, model')
        | _ =>
            let db := sent (Update (ID model) updates) db in
            if decide (title_clash (ID model) updates (rows db))
            then (db, failed title_taken, model')
            else
              let hits :=
                length (filter (fun r => ID r = ID model) (rows db)) in
              match fault with
              | Some f => (db, uncommitted (fault_text f) hits, model')
              | None =>
                  let write r :=
                    if decide (ID r = ID model)
                    then assign micro updates r else r in
                  (with_rows (write <$> rows db) db, affected hits, model')
              end
        end
  end.

(** DELETE ... WHERE id = $1, the parameter sent as text. *)
Definition Delete (noteId : string) (db : DB) : DB * Result :=
  let '(fault, db) := next_fault db in
  match fault with
  | Some (AtBegin msg) => (db, failed msg)
  | Some (AtExec msg) => (sent (DeleteWhere noteId) db, failed msg)
  | _ =>
      let db := sent (DeleteWhere noteId) db in
      match uuid_in noteId with
      | None => (db, failed (not_a_uuid noteId))
      | Some id =>
          let hits := length (filter (fun r => ID r = id) (rows db)) in
          match fault with
          | Some f => (db, uncommitted (fault_text f) hits)
          | None =>
              (with_rows (filter (fun r => ID r ≠ id) (rows db)) db,
               affected hits)
          end
      end
  end.

End MemStore.

Global Instance MemStore_gorm : Gorm MemStore.DB := {|
  Create := MemStore.Create;
  Find := MemStore.Find;
  First := MemStore.First;
  Updates := MemStore.Updates;
  Delete := MemStore.Delete
|}.

(** ** Sample data *)

Module Sample.

Definition id1 : UUID := "3f2c8a10-9b7e-4c1d-8a55-1d2e3f4a5b01".
Definition id2 : UUID := "3f2c8a10-9b7e-4c1d-8a55-1d2e3f4a5b02".
Definition id3 : UUID := "3f2c8a10-9b7e-4c1d-8a55-1d2e3f4a5b03".

(** The generator behind [id1], [id2], [id3]: fifteen fixed bytes, and
    the number of the draw in the last one. *)
Definition uuids (n i : nat) : Byte.byte :=
  match i with
  | 15%nat => nth n [Byte.x01; Byte.x02; Byte.x03] Byte.x00
  | _ =>
      nth i [Byte.x3f; Byte.x2c; Byte.x8a; Byte.x10; Byte.x9b; Byte.x7e;
             Byte.x4c; Byte.x1d; Byte.x8a; Byte.x55; Byte.x1d; Byte.x2e;
             Byte.x3f; Byte.x4a; Byte.x5b] Byte.x00
  end.

Definition noteA : Note := mkNote id1 "A" "x" "" true 100000 100000.
Definition noteB : Note := mkNote id2 "B" "y" "home" false 200000 200000.

Definition empty : MemStore.DB := MemStore.mkDB [] [] uuids 0 [].
Definition one : MemStore.DB := MemStore.mkDB [noteA] [] uuids 1 [].
Definition two : MemStore.DB := MemStore.mkDB [noteA; noteB] [] uuids 2 [].

(** The same tables behind a backend whose statements fail as [script]
    says. *)
Definition failing (script : list (option string)) (db : MemStore.DB)
  : MemStore.DB :=
  MemStore.mkDB (MemStore.rows db) (fmap (M:=option) MemStore.AtExec <$> script)
                (MemStore.uuids db) (MemStore.drawn db) (MemStore.log db).

Definition post (payload : CreateNoteSchema) : Ctx CreateNoteSchema :=
  mkCtx ∅ ∅ (inr (Some payload)).

Definition patch (noteId : string) (payload : UpdateNoteSchema)
  : Ctx UpdateNoteSchema :=
  mkCtx {[ "noteId" := noteId ]} ∅ (inr (Some payload)).

(** A request without a body: GET and DELETE on [/notes/:noteId], GET on
    [/notes] with a query string. *)
Definition bare (noteId : string) (query : gmap string string) : Ctx unit :=
  mkCtx {[ "noteId" := noteId ]} query (inl "Unprocessable Entity").

End Sample.

(** * Properties *)

(** ** Observations on outcomes *)

Definition status_of (o : Outcome) : option Z :=
  match o with
  | Sent r => Some (Status r)
  | Panic => None
  end.


(** What an accepted update leaves of a row: rewritten under the id of
    the note found, untouched under any other. *)
Definition patched (id : UUID) (p : UpdateNoteSchema) (now : Time)
           (r : Note) : Note :=
  if decide (ID r = id)
  then MemStore.assign MemStore.micro (updates_of p now) r else r.

(** [t] occurs in [s]. *)
Definition occurs (t s : string) : Prop :=
  ∃ before after, s = before +:+ t +:+ after.

(** The note that a success response carries under [data.note]. *)
Definition note_of (o : Outcome) : option Note :=
  match o with
  | Sent (mkResponse _ (JSONMap m)) =>
      match m !! "data" with
      | Some (VMap data) =>
          match data !! "note" with
          | Some (VNote n) => Some n
          | _ => None
          end
      | _ => None
      end
  | _ => None
  end.

(** The notes that a list response carries, with its [results] count. *)
Definition notes_of (o : Outcome) : option (Z * list Note) :=
  match o with
  | Sent (mkResponse _ (JSONMap m)) =>
      match m !! "results", m !! "notes" with
      | Some (VInt n), Some (VNotes ns) => Some (n, ns)
      | _, _ => None
      end
  | _ => None
  end.

(** What the table guarantees about its rows: ids and titles are not
    shared. *)
Definition unique_keys (rs : list Note) : Prop :=
  NoDup (ID <$> rs) ∧ NoDup (Title <$> rs).

(** What validation guarantees about a stored note. *)
Definition filled (n : Note) : Prop := Title n ≠ "" ∧ Content n ≠ "".

(** ** Strings *)

Lemma append_cons a (s r : string) : String a s +:+ r = String a (s +:+ r).
Proof. reflexivity. Qed.

Lemma append_nil (r : string) : "" +:+ r = r.
Proof. reflexivity. Qed.

Lemma prefix_occurs t s :
  String.prefix t s = true ↔ ∃ after, s = t +:+ after.
Proof.
  revert s. induction t as [|a t IH]; intros s.
  - split; [intros _; by exists s | by destruct s].
  - destruct s as [|b s]; simpl.
    + split; [done | intros [? ?]; discriminate].
    + setoid_rewrite append_cons.
      destruct (Ascii.ascii_dec a b) as [->|Hne].
      * rewrite IH. split; intros [r Hr]; exists r; congruence.
      * split; [done | intros [r Hr]; congruence].
Qed.

Lemma Contains_occurs s t : Contains s t = true ↔ occurs t s.
Proof.
  induction s as [|a s IH]; cbn [Contains].
  - rewrite orb_false_r, prefix_occurs. split.
    + intros [r Hr]. by exists "", r.
    + intros ([|b before] & after & Hs); [by exists after | discriminate].
  - rewrite orb_true_iff, IH, prefix_occurs. split.
    + intros [[r Hr]|(before & after & Hs)].
      * by exists "", r.
      * exists (String a before), after. by rewrite append_cons, Hs.
    + intros ([|b before] & after & Hs).
      * left. by exists after.
      * right. exists before, after. rewrite append_cons in Hs. congruence.
Qed.

Example Contains_duplicate_key :
  Contains MemStore.title_taken "duplicate key value violates unique" = true
  ∧ Contains "server closed the connection" "duplicate key value violates unique"
    = false.
Proof. split; reflexivity. Qed.

Example Atoi_values :
  Atoi "3" = (3, None)
  ∧ Atoi "+10" = (10, None)
  ∧ Atoi "-7" = (-7, None)
  ∧ Atoi "abc" = (0, Some ErrSyntax)
  ∧ Atoi "1.5" = (0, Some ErrSyntax)
  ∧ Atoi "9223372036854775808" = (MaxInt, Some ErrRange).
Proof. repeat split; reflexivity. Qed.

(** The scenario of the spec: create, create again with the same title,
    list, delete, get. *)
Example create_conflict_list_delete_get :
  let '(db1, o1) :=
    CreateNoteHandler (Sample.post (mkCreateNoteSchema "A" "x" "" false)) 100999
                      Sample.empty in
  let '(db2, o2) :=
    CreateNoteHandler (Sample.post (mkCreateNoteSchema "A" "y" "" false)) 200 db1 in
  let '(db3, o3) :=
    FindNotes (Sample.bare "" {[ "limit" := "10"; "page" := "1" ]}) db2 in
  let '(db4, o4) := DeleteNote (Sample.bare Sample.id1 ∅) db3 in
  let '(db5, o5) := FindNoteById (Sample.bare Sample.id1 ∅) db4 in
  status_of o1 = Some StatusCreated
  ∧ status_of o2 = Some StatusConflict
  ∧ o3 = JSON StatusOK
              {[ "status" := VString "success";
                 "results" := VInt 1;
                 "notes" := VNotes [mkNote Sample.id1 "A" "x" "" false 100000 100000] ]}
  ∧ o4 = SendStatus StatusNoContent
  ∧ status_of o5 = Some StatusNotFound
  ∧ MemStore.rows db5 = [].
Proof. vm_compute. done. Qed.

(** ** Error mapping, for any backend *)

Section ErrorMapping.
Context {DB : Type} `{Gorm DB}.

Lemma DeleteNote_zero_rows {T} (c : Ctx T) (db db' : DB) result :
  Delete (Params c "noteId") db = (db', result) →
  RowsAffected result = 0 →
  status_of (snd (DeleteNote c db)) = Some StatusNotFound.
Proof.
  intros Hd Hz. unfold DeleteNote. rewrite Hd, Hz. reflexivity.
Qed.

Lemma DeleteNote_status {T} (c : Ctx T) (db : DB) :
  let result := snd (Delete (Params c "noteId") db) in
  status_of (snd (DeleteNote c db)) =
    Some (if RowsAffected result =? 0 then StatusNotFound
          else match Error result with
               | Some _ => StatusBadGateway
               | None => StatusNoContent
               end).
Proof.
  unfold DeleteNote. destruct (Delete _ db) as [db' result]. simpl.
  destruct (RowsAffected result =? 0); [done|].
  by destruct (Error result).
Qed.

(** Once the body is decoded and the note is found, the answer is 200
    whatever [Updates] reports. *)
Lemma UpdateNote_ignores_write_result (c : Ctx UpdateNoteSchema) now
      (db db1 : DB) payload result note :
  BodyParser c = inr (Some payload) →
  First (Params c "noteId") db = (db1, result, note) →
  Error result = None →
  status_of (snd (UpdateNote c now db)) = Some StatusOK.
Proof.
  intros Hb Hf He. unfold UpdateNote. rewrite Hb, Hf, He.
  by destruct (Updates _ _ _) as [[? ?] ?].
Qed.

End ErrorMapping.

(** ** Validation of the create payload *)

Lemma ValidateStruct_create (p : CreateNoteSchema) :
  ValidateStruct (Some p) =
    Some (app
      (if decide (cTitle p = "")
       then [mkErrorResponse "CreateNoteSchema.Title" "required" ""] else [])
      (if decide (cContent p = "")
       then [mkErrorResponse "CreateNoteSchema.Content" "required" ""] else [])).
Proof.
  unfold ValidateStruct, validate_field. simpl.
  destruct (decide (cTitle p = "")) as [->|Ht],
           (decide (cContent p = "")) as [->|Hc]; simpl.
  - reflexivity.
  - apply String.eqb_neq in Hc. by rewrite Hc.
  - apply String.eqb_neq in Ht. by rewrite Ht.
  - apply String.eqb_neq in Ht, Hc. by rewrite Ht, Hc.
Qed.

Lemma ValidateStruct_valid (p : CreateNoteSchema) :
  ValidateStruct (Some p) = Some [] ↔ cTitle p ≠ "" ∧ cContent p ≠ "".
Proof.
  rewrite ValidateStruct_create.
  destruct (decide (cTitle p = "")), (decide (cContent p = ""));
    simpl; split; try done; intros []; done.
Qed.

(** ** Delete: a backend failure *)

(** C1 (the code departs from it).  A delete must answer 502 when the
    store reports an error, and never 404 for it.  DeleteNote tests
    [RowsAffected == 0] before [Error]: for the note [id1], which is
    stored, behind a backend that refuses the statement, the store
    reports an error with no row affected, and the handler answers 404;
    the note is still there. *)
Theorem DeleteNote_backend_error_answers_404 :
  let db := Sample.failing [Some "dial tcp 127.0.0.1:5432: connect: connection refused"] Sample.one in
  let c := Sample.bare Sample.id1 ∅ in
  snd (Delete (Params c "noteId") db)
    = mkResult (Some (ErrBackend "dial tcp 127.0.0.1:5432: connect: connection refused")) 0
  ∧ status_of (snd (DeleteNote c db)) = Some StatusNotFound
  ∧ MemStore.rows (fst (DeleteNote c db)) = [Sample.noteA].
Proof. vm_compute. done. Qed.

(** ** Update: a backend failure on the write *)

(** C2 (the code departs from it).  An update whose write fails must
    answer 502.  UpdateNote drops the result of [Updates]: for the stored
    note [id1], with a backend that answers the existence check and then
    refuses the write, the handler answers 200 with the note as it would
    have been, and the stored note is unchanged. *)
Theorem UpdateNote_write_error_answers_200 :
  let db := Sample.failing [None; Some "write tcp: connection reset by peer"] Sample.one in
  let c := Sample.patch Sample.id1 (mkUpdateNoteSchema "" "" "work" None) in
  let updates := updates_of (mkUpdateNoteSchema "" "" "work" None) 300 in
  let '(db1, found, note) := First (Params c "noteId") db in
  Error found = None
  ∧ Error (snd (fst (Updates note updates db1)))
      = Some (ErrBackend "write tcp: connection reset by peer")
  ∧ status_of (snd (UpdateNote c 300 db)) = Some StatusOK
  ∧ MemStore.rows (fst (UpdateNote c 300 db)) = [Sample.noteA].
Proof. vm_compute. done. Qed.

(** ** Create: conflict or bad gateway *)

(** C8.  When the insert of a create request fails, the answer is 409 if
    the text of the error contains "duplicate key value violates unique",
    and 502 otherwise; nothing else about the error is looked at. *)
Theorem CreateNoteHandler_insert_error
        {DB : Type} `{Gorm DB} c now (db : DB) payload e :
  BodyParser c = inr (Some payload) →
  cTitle payload ≠ "" →
  cContent payload ≠ "" →
  Error (snd (fst (Create (newNote_of payload now) db))) = Some e →
  (occurs "duplicate key value violates unique" (Error_text e) →
   status_of (snd (CreateNoteHandler c now db)) = Some StatusConflict)
  ∧ (¬ occurs "duplicate key value violates unique" (Error_text e) →
     status_of (snd (CreateNoteHandler c now db)) = Some StatusBadGateway).
Proof.
  intros Hb Ht Hc He.
  assert (Hv : ValidateStruct (Some payload) = Some [])
    by by apply ValidateStruct_valid.
  unfold CreateNoteHandler. rewrite Hb, Hv.
  destruct (Create _ db) as [[db' result] note]. simpl in He. rewrite He.
  destruct (Contains (Error_text e) _) eqn:Hcont.
  - split; [done|]. intros Hno. by apply Contains_occurs in Hcont.
  - split; [|done]. intros Hocc. apply Contains_occurs in Hocc. congruence.
Qed.

Lemma CreateNoteHandler_insert_error_witness :
  status_of (snd (CreateNoteHandler
                    (Sample.post (mkCreateNoteSchema "A" "y" "" false))
                    300 Sample.one))
    = Some StatusConflict
  ∧ status_of (snd (CreateNoteHandler
                      (Sample.post (mkCreateNoteSchema "C" "y" "" false)) 300
                      (Sample.failing [Some "server closed the connection"] Sample.one)))
      = Some StatusBadGateway.
Proof.
  split.
  - apply (CreateNoteHandler_insert_error
             (Sample.post (mkCreateNoteSchema "A" "y" "" false)) 300 Sample.one
             (mkCreateNoteSchema "A" "y" "" false)
             (ErrBackend MemStore.title_taken));
      [reflexivity | done | done | reflexivity |].
    exists "ERROR: ", " constraint idx_notes_title (SQLSTATE 23505)".
    reflexivity.
  - apply (CreateNoteHandler_insert_error
             (Sample.post (mkCreateNoteSchema "C" "y" "" false)) 300
             (Sample.failing [Some "server closed the connection"] Sample.one)
             (mkCreateNoteSchema "C" "y" "" false)
             (ErrBackend "server closed the connection"));
      [reflexivity | done | done | reflexivity |].
    intros Hocc. apply Contains_occurs in Hocc. vm_compute in Hocc. done.
Defined.

(** ** The shape of error responses *)


Section Envelope.
Context {DB : Type} `{Gorm DB}.






End Envelope.





(** ** The text of a uuid *)

Lemma xdigit_hex_high b :
  xdigit (hexchar (Strings.Byte.to_N b / 16)) = Some (Strings.Byte.to_N b / 16)%N.
Proof. by destruct b. Qed.

Lemma xdigit_hex_low b :
  xdigit (hexchar (Strings.Byte.to_N b mod 16)) = Some (Strings.Byte.to_N b mod 16)%N.
Proof. by destruct b. Qed.

Lemma byte_of_hex b :
  Strings.Byte.of_N (16 * (Strings.Byte.to_N b / 16) + Strings.Byte.to_N b mod 16)
    = Some b.
Proof. by destruct b. Qed.

Lemma hexchar_not_hyphen b :
  Ascii.eqb (hexchar (Strings.Byte.to_N b / 16)) "-" = false.
Proof. by destruct b. Qed.

Lemma hexchar_not_brace b :
  Ascii.eqb (hexchar (Strings.Byte.to_N b / 16)) "{" = false.
Proof. by destruct b. Qed.

Lemma uuid_out_from_cons i b bs :
  uuid_out_from i (b :: bs)
    = String (hexchar (Strings.Byte.to_N b / 16))
        (String (hexchar (Strings.Byte.to_N b mod 16))
           ((match i with
             | 3%nat | 5%nat | 7%nat | 9%nat => "-"
             | _ => ""
             end) +:+ uuid_out_from (S i) bs)).
Proof. reflexivity. Qed.

(** After a byte, the reader finds the next byte: it skips the hyphen
    that the printer put there, and a hexadecimal digit is no hyphen. *)
Lemma uuid_skip_hyphen i bs :
  match (match i with
         | 3%nat | 5%nat | 7%nat | 9%nat => "-"
         | _ => ""
         end) +:+ uuid_out_from (S i) bs with
  | String c r =>
      if Ascii.eqb c "-" && Nat.odd i && (i <? 15)%nat
      then r else
        (match i with
         | 3%nat | 5%nat | 7%nat | 9%nat => "-"
         | _ => ""
         end) +:+ uuid_out_from (S i) bs
  | EmptyString =>
      (match i with
       | 3%nat | 5%nat | 7%nat | 9%nat => "-"
       | _ => ""
       end) +:+ uuid_out_from (S i) bs
  end = uuid_out_from (S i) bs.
Proof.
  assert (Hplain :
    match uuid_out_from (S i) bs with
    | String c r =>
        if Ascii.eqb c "-" && Nat.odd i && (i <? 15)%nat
        then r else uuid_out_from (S i) bs
    | EmptyString => uuid_out_from (S i) bs
    end = uuid_out_from (S i) bs).
  { destruct bs as [|b' bs']; [done|].
    by rewrite uuid_out_from_cons, hexchar_not_hyphen. }
  do 10 (destruct i as [|i]; [done|]). exact Hplain.
Qed.

Lemma uuid_bytes_out bs :
  ∀ i, (i + length bs = 16)%nat →
       uuid_bytes (length bs) i (uuid_out_from i bs) = Some (bs, "").
Proof.
  induction bs as [|b bs IH]; intros i Hi; [done|].
  rewrite uuid_out_from_cons. cbn [length uuid_bytes].
  rewrite xdigit_hex_high, xdigit_hex_low, byte_of_hex, uuid_skip_hyphen.
  rewrite IH; [done|]. cbn [length] in Hi. lia.
Qed.

Lemma string_to_uuid_out bs :
  length bs = 16%nat → string_to_uuid (uuid_out bs) = Some bs.
Proof.
  intros Hlen. unfold string_to_uuid, uuid_out.
  assert (Hstart :
    match uuid_out_from 0 bs with
    | String c r => if Ascii.eqb c "{" then r else uuid_out_from 0 bs
    | EmptyString => uuid_out_from 0 bs
    end = uuid_out_from 0 bs
    ∧ match uuid_out_from 0 bs with
      | String c _ => Ascii.eqb c "{"
      | EmptyString => false
      end = false).
  { destruct bs as [|b bs]; [done|].
    by rewrite uuid_out_from_cons, hexchar_not_brace. }
  destruct Hstart as [-> ->].
  pose proof (uuid_bytes_out bs 0) as Hbytes. rewrite Hlen in Hbytes.
  by rewrite Hbytes.
Qed.

Lemma uuid_in_out bs :
  length bs = 16%nat → uuid_in (uuid_out bs) = Some (uuid_out bs).
Proof. intros Hlen. unfold uuid_in. by rewrite string_to_uuid_out. Qed.

(** An id that the generator drew is read back from its own text. *)
Lemma uuid_in_drawn (db : MemStore.DB) :
  uuid_in (fst (MemStore.draw db)) = Some (fst (MemStore.draw db)).
Proof. apply uuid_in_out. reflexivity. Qed.

(** ** Integers and numerals *)

Lemma wrap64_small z : MinInt ≤ z ≤ MaxInt → wrap64 z = z.
Proof.
  unfold wrap64, MinInt, MaxInt. intros Hz.
  rewrite Z.mod_small; lia.
Qed.

Lemma wrap64_range z : MinInt ≤ wrap64 z ≤ MaxInt.
Proof.
  unfold wrap64, MinInt, MaxInt.
  pose proof (Z.mod_pos_bound (z + 2 ^ 63) (2 ^ 64)). lia.
Qed.

Lemma digit_Some a d : digit a = Some d → is_digit a ∧ 0 ≤ d ≤ 9.
Proof.
  unfold digit, is_digit.
  destruct (48 <=? _) eqn:H1; [|done].
  destruct (_ <=? 57) eqn:H2; [|done].
  intros [= <-]. lia.
Qed.

Lemma digit_None a : digit a = None → ¬ is_digit a.
Proof.
  unfold digit, is_digit.
  destruct (48 <=? _) eqn:H1; [destruct (_ <=? 57) eqn:H2; [done|]|]; lia.
Qed.

Lemma is_digit_Some a : is_digit a → ∃ d, digit a = Some d ∧ 0 ≤ d ≤ 9.
Proof.
  intros Ha. destruct (digit a) as [d|] eqn:Hd.
  - exists d. split; [done|]. by apply digit_Some in Hd as [_ ?].
  - by apply digit_None in Hd.
Qed.


Lemma accum_bound ds n :
  all_digits ds → 0 ≤ n →
  0 ≤ accum n ds < (n + 1) * 10 ^ Z.of_nat (String.length ds).
Proof.
  revert n. induction ds as [|c ds IH]; intros n Hall Hn.
  - cbn. lia.
  - destruct Hall as [Hc Hall].
    destruct (is_digit_Some c Hc) as (d & Hd & Hd09).
    cbn [accum String.length]. rewrite Hd.
    change (default 0 (Some d)) with d.
    specialize (IH (n * 10 + d) Hall ltac:(lia)).
    rewrite Nat2Z.inj_succ, Z.pow_succ_r by lia.
    assert (0 < 10 ^ Z.of_nat (String.length ds)) by (apply Z.pow_pos_nonneg; lia).
    assert ((n * 10 + d + 1) * 10 ^ Z.of_nat (String.length ds)
            ≤ (n + 1) * (10 * 10 ^ Z.of_nat (String.length ds))) by nia.
    lia.
Qed.

(** Fewer than nineteen digits stay below [10 ^ 18]. *)
Lemma accum_short ds :
  all_digits ds → (String.length ds < 19)%nat → 0 ≤ accum 0 ds < 10 ^ 18.
Proof.
  intros Hall Hlen. pose proof (accum_bound ds 0 Hall ltac:(lia)) as Hb.
  assert (10 ^ Z.of_nat (String.length ds) ≤ 10 ^ 18)
    by (apply Z.pow_le_mono_r; lia).
  lia.
Qed.

Lemma Atoi_fast_Some s n v :
  Atoi_fast s n = Some v → all_digits s ∧ v = accum n s.
Proof.
  revert n. induction s as [|c s IH]; intros n; cbn.
  - by intros [= <-].
  - destruct (digit c) as [d|] eqn:Hd; [|done].
    intros [Hall ->]%IH. by apply digit_Some in Hd as [? _].
Qed.

(** The three ways the loop of [ParseUint] ends. *)
Lemma ParseUint_loop_cases s n :
  0 ≤ n ≤ maxUint64 →
  ParseUint_loop s n = (0, Some ErrSyntax)
  ∨ (ParseUint_loop s n = (maxUint64, Some ErrRange)
     ∧ ∃ ds rest, s = ds +:+ rest ∧ all_digits ds ∧ maxUint64 < accum n ds)
  ∨ (ParseUint_loop s n = (accum n s, None)
     ∧ all_digits s ∧ accum n s ≤ maxUint64).
Proof.
  revert n. induction s as [|c s IH]; intros n Hn.
  - right. right. cbn. split; [done|]. split; [done | lia].
  - cbn [ParseUint_loop accum all_digits].
    destruct (digit c) as [d|] eqn:Hd; [|by left].
    pose proof (digit_Some _ _ Hd) as [Hc Hd09].
    change (default 0 (Some d)) with d.
    destruct (maxUint64 / 10 + 1 <=? n) eqn:Hcut.
    { right. left. split; [done|]. exists (String c ""), s.
      split; [done|]. split; [done|]. cbn. rewrite Hd. cbn.
      apply Z.leb_le in Hcut. unfold maxUint64 in *.
      change ((2 ^ 64 - 1) / 10 + 1) with 1844674407370955162 in Hcut. lia. }
    cbn zeta. destruct (maxUint64 <? n * 10 + d) eqn:Hover.
    { right. left. split; [done|]. exists (String c ""), s.
      split; [done|]. split; [done|]. cbn. rewrite Hd. cbn.
      by apply Z.ltb_lt in Hover. }
    apply Z.ltb_ge in Hover.
    destruct (IH (n * 10 + d) ltac:(lia))
      as [->|[(-> & ds & rest & -> & Hall & Hbig)|(-> & Hall & Hfit)]].
    + by left.
    + right. left. split; [done|]. exists (String c ds), rest.
      split; [done|]. split; [done|]. cbn. by rewrite Hd.
    + right. right. done.
Qed.


Lemma numeric_unsigned v :
  unsigned v ≠ "" → all_digits (unsigned v) → numeric v.
Proof.
  destruct v as [|c r]; [done|]. cbn.
  destruct (Ascii.eqb c "+") eqn:Hplus;
    [|destruct (Ascii.eqb c "-") eqn:Hminus]; cbn; intros Hne Hall.
  - apply Ascii.eqb_eq in Hplus as ->. exists "+", r. auto.
  - apply Ascii.eqb_eq in Hminus as ->. exists "-", r. auto 6.
  - exists "", (String c r). auto.
Qed.

Lemma ParseInt_unsigned v :
  v ≠ "" → ParseInt v = ParseInt_signed (negative v) (unsigned v).
Proof.
  destruct v as [|c r]; [done|]. intros _. cbn.
  destruct (Ascii.eqb c "+") eqn:Hplus; [|by destruct (Ascii.eqb c "-")].
  apply Ascii.eqb_eq in Hplus as ->. done.
Qed.

Lemma ParseInt_signed_range neg s : MinInt ≤ fst (ParseInt_signed neg s) ≤ MaxInt.
Proof.
  unfold ParseInt_signed.
  destruct (snd (ParseUint s)) as [[]|].
  - unfold MinInt, MaxInt. cbn. lia.
  - destruct (negb neg && _); [unfold MinInt, MaxInt; cbn; lia|].
    destruct (neg && _); [unfold MinInt, MaxInt; cbn; lia|].
    cbn [fst]. destruct neg; apply wrap64_range.
  - destruct (negb neg && _); [unfold MinInt, MaxInt; cbn; lia|].
    destruct (neg && _); [unfold MinInt, MaxInt; cbn; lia|].
    cbn [fst]. destruct neg; apply wrap64_range.
Qed.

Lemma ParseInt_range s : MinInt ≤ fst (ParseInt s) ≤ MaxInt.
Proof.
  destruct s as [|c r]; [unfold MinInt, MaxInt; cbn; lia|]. cbn.
  destruct (Ascii.eqb c "+"); [|destruct (Ascii.eqb c "-")];
    apply ParseInt_signed_range.
Qed.

Lemma Atoi_range s : MinInt ≤ fst (Atoi s) ≤ MaxInt.
Proof.
  unfold Atoi.
  destruct ((0 <? String.length s)%nat && (String.length s <? 19)%nat) eqn:Hfast;
    [|apply ParseInt_range].
  apply andb_true_iff in Hfast as [_ Hlen]. apply Nat.ltb_lt in Hlen.
  destruct s as [|c r]; [unfold MinInt, MaxInt; cbn; lia|].
  set (sign := Ascii.eqb c "-" || Ascii.eqb c "+").
  set (body := if sign then r else String c r).
  assert (Hbody : (String.length body < 19)%nat).
  { unfold body. destruct sign; cbn in *; lia. }
  destruct (sign && _); [unfold MinInt, MaxInt; cbn; lia|].
  destruct (Atoi_fast body 0) as [n|] eqn:Hn; [|unfold MinInt, MaxInt; cbn; lia].
  apply Atoi_fast_Some in Hn as [Hall ->].
  pose proof (accum_short body Hall Hbody). cbn [fst].
  unfold MinInt, MaxInt. destruct (Ascii.eqb c "-"); lia.
Qed.

(** What is neither a numeral nor the start of an overflow is 0. *)
Lemma Atoi_syntax v : ¬ numeric v → ¬ overflowing v → fst (Atoi v) = 0.
Proof.
  intros Hnum Hover. unfold Atoi.
  destruct ((0 <? String.length v)%nat && (String.length v <? 19)%nat).
  - destruct v as [|c r]; [done|].
    destruct (Ascii.eqb c "-" || Ascii.eqb c "+") eqn:Hsign.
    + cbn [andb]. destruct r as [|c' r']; [done|]. cbn [String.length Nat.ltb Nat.leb].
      destruct (Atoi_fast (String c' r') 0) as [n|] eqn:Hn; [|done].
      apply Atoi_fast_Some in Hn as [Hall _]. destruct Hnum.
      apply numeric_unsigned; cbn; rewrite orb_comm, Hsign; done.
    + cbn [andb].
      destruct (Atoi_fast (String c r) 0) as [n|] eqn:Hn; [|done].
      apply Atoi_fast_Some in Hn as [Hall _]. destruct Hnum.
      apply numeric_unsigned; cbn; rewrite orb_comm, Hsign; done.
  - destruct (decide (v = "")) as [->|Hv]; [done|].
    rewrite ParseInt_unsigned by done. unfold ParseInt_signed, ParseUint.
    destruct (unsigned v) as [|c s] eqn:Hbody; [done|].
    destruct (ParseUint_loop_cases (String c s) 0 ltac:(unfold maxUint64; lia))
      as [->|[(-> & ds & rest & Heq & Hall & Hbig)|(-> & Hall & Hfit)]].
    + done.
    + destruct Hover. exists ds, rest. by rewrite Hbody.
    + destruct Hnum. apply numeric_unsigned; by rewrite Hbody.
Qed.


Lemma Query_absent {T} (c : Ctx T) key defaultValue :
  queries c !! key = None → Query c key defaultValue = defaultValue.
Proof. unfold Query. by intros ->. Qed.

Lemma Query_present {T} (c : Ctx T) key defaultValue v :
  queries c !! key = Some v → v ≠ "" → Query c key defaultValue = v.
Proof. unfold Query. intros ->. simpl. by case_decide. Qed.
(** ** Update on the notes table *)

(** What UpdateNote's map writes over a row. *)
Lemma updates_of_title p now :
  updates_of p now !! "title"
    = if decide (uTitle p ≠ "") then Some (VString (uTitle p)) else None.
Proof.
  unfold updates_of.
  repeat case_decide; destruct (uPublished p); by simplify_map_eq.
Qed.

Lemma updates_of_content p now :
  updates_of p now !! "content"
    = if decide (uContent p ≠ "") then Some (VString (uContent p)) else None.
Proof.
  unfold updates_of.
  repeat case_decide; destruct (uPublished p); by simplify_map_eq.
Qed.

Lemma updates_of_category p now :
  updates_of p now !! "category"
    = if decide (uCategory p ≠ "") then Some (VString (uCategory p)) else None.
Proof.
  unfold updates_of.
  repeat case_decide; destruct (uPublished p); by simplify_map_eq.
Qed.

Lemma updates_of_published p now :
  updates_of p now !! "published" = VPtrBool <$> uPublished p.
Proof.
  unfold updates_of.
  repeat case_decide; destruct (uPublished p); by simplify_map_eq.
Qed.

Lemma updates_of_updated_at p now :
  updates_of p now !! "updated_at" = Some (VTime now).
Proof. unfold updates_of. by simplify_map_eq. Qed.

Lemma assign_updates_of precision p now r :
  MemStore.assign precision (updates_of p now) r
    = {| ID := ID r;
         Title := if decide (uTitle p ≠ "") then uTitle p else Title r;
         Content := if decide (uContent p ≠ "") then uContent p else Content r;
         Category := if decide (uCategory p ≠ "") then uCategory p else Category r;
         Published := default (Published r) (uPublished p);
         CreatedAt := CreatedAt r;
         UpdatedAt := precision now |}.
Proof.
  unfold MemStore.assign.
  rewrite updates_of_title, updates_of_content, updates_of_category,
    updates_of_published, updates_of_updated_at.
  repeat case_decide; by destruct (uPublished p).
Qed.

Lemma title_clash_updates_of id p now rs :
  MemStore.title_clash id (updates_of p now) rs
  ↔ uTitle p ≠ "" ∧ Exists (fun r => ID r ≠ id ∧ Title r = uTitle p) rs.
Proof.
  unfold MemStore.title_clash. rewrite updates_of_title.
  destruct (decide (uTitle p ≠ "")); [tauto|]. split; [done | by intros []].
Qed.

Lemma head_filter_Some {A} (P : A → Prop) `{∀ x, Decision (P x)} l x :
  head (filter P l) = Some x → P x ∧ x ∈ l.
Proof.
  intros Hh. apply head_Some_elem_of in Hh.
  by apply list_elem_of_filter in Hh.
Qed.

Lemma head_filter_None {A} (P : A → Prop) `{∀ x, Decision (P x)} l :
  head (filter P l) = None → ∀ x, x ∈ l → ¬ P x.
Proof.
  intros Hh x Hx HP.
  assert (Hin : x ∈ filter P l) by by apply list_elem_of_filter.
  destruct (filter P l); [by apply elem_of_nil in Hin | done].
Qed.



Lemma Forall2_fmap_self {A} (R : A → A → Prop) (f : A → A) (l : list A) :
  (∀ x, x ∈ l → R x (f x)) → Forall2 R l (f <$> l).
Proof.
  intros HR. apply Forall2_fmap_r, Forall_Forall2_diag, Forall_forall. done.
Qed.

Lemma Forall2_self {A} (R : A → A → Prop) (l : list A) :
  (∀ x, R x x) → Forall2 R l l.
Proof. intros HR. apply Forall_Forall2_diag, Forall_forall. auto. Qed.

Lemma note_of_success status n :
  note_of (JSON status {[ "status" := VString "success";
                          "data" := VMap {[ "note" := VNote n ]} ]})
    = Some n.
Proof. reflexivity. Qed.

(** ** The calls on the table *)

Local Ltac mem :=
  cbn [Create Find First Updates Delete MemStore_gorm];
  unfold MemStore.Create, MemStore.Find, MemStore.First, MemStore.Updates,
    MemStore.Delete, MemStore.next_fault, MemStore.sent, MemStore.draw.

(** A lookup changes no row and takes one entry of the script. *)
Lemma First_state noteId (db : MemStore.DB) :
  MemStore.rows (fst (fst (First noteId db))) = MemStore.rows db
  ∧ MemStore.faults (fst (fst (First noteId db))) = tail (MemStore.faults db)
  ∧ MemStore.log (fst (fst (First noteId db)))
    = (MemStore.log db ++ [MemStore.SelectFirst noteId])%list.
Proof.
  mem. destruct (mjoin (head (MemStore.faults db))); [done|].
  destruct (uuid_in noteId); [|done]. cbn [MemStore.rows].
  by destruct (head (filter _ (MemStore.rows db))).
Qed.

(** The answer of a lookup, by the script, the text and the rows. *)
Lemma First_answer noteId (db : MemStore.DB) :
  (snd (fst (First noteId db)), snd (First noteId db))
    = match mjoin (head (MemStore.faults db)) with
      | Some f => (MemStore.failed (MemStore.fault_text f), Note_zero)
      | None =>
          match uuid_in noteId with
          | None => (MemStore.failed (MemStore.not_a_uuid noteId), Note_zero)
          | Some id =>
              match head (filter (fun r => ID r = id) (MemStore.rows db)) with
              | Some r => (MemStore.affected 1, r)
              | None => (mkResult (Some ErrRecordNotFound) 0, Note_zero)
              end
          end
      end.
Proof.
  mem. destruct (mjoin (head (MemStore.faults db))); [done|].
  destruct (uuid_in noteId); [|done]. cbn [MemStore.rows].
  by destruct (head (filter _ (MemStore.rows db))).
Qed.

(** A lookup that reports no error has found a stored note whose id is
    the one that the text denotes. *)
Lemma First_found noteId (db db1 : MemStore.DB) found note :
  First noteId db = (db1, found, note) →
  Error found = None →
  mjoin (head (MemStore.faults db)) = None
  ∧ uuid_in noteId = Some (ID note)
  ∧ head (filter (fun r => ID r = ID note) (MemStore.rows db)) = Some note
  ∧ note ∈ MemStore.rows db
  ∧ MemStore.rows db1 = MemStore.rows db
  ∧ MemStore.faults db1 = tail (MemStore.faults db).
Proof.
  intros HF He.
  pose proof (First_state noteId db) as (Hrows & Hfaults & _).
  pose proof (First_answer noteId db) as Hanswer.
  rewrite HF in Hrows, Hfaults, Hanswer. cbn [fst snd] in *.
  destruct (mjoin (head (MemStore.faults db)));
    [injection Hanswer as -> _; done|].
  destruct (uuid_in noteId) as [id|]; [|injection Hanswer as -> _; done].
  destruct (head (filter _ (MemStore.rows db))) as [r|] eqn:Hhead;
    [|injection Hanswer as -> _; done].
  injection Hanswer as _ ->.
  pose proof (head_filter_Some _ _ _ Hhead) as [Hid Hin].
  rewrite <- Hid in Hhead. repeat split; try done. by rewrite Hid.
Qed.

(** What a write leaves: the rows as they were, or, when it reports no
    error, every row under the id of the model rewritten. *)
Lemma Updates_rows model updates (db : MemStore.DB) :
  MemStore.rows (fst (fst (Updates model updates db))) = MemStore.rows db
  ∨ (Error (snd (fst (Updates model updates db))) = None
     ∧ ¬ MemStore.title_clash (ID model) updates (MemStore.rows db)
     ∧ MemStore.rows (fst (fst (Updates model updates db)))
       = (fun r => if decide (ID r = ID model)
                   then MemStore.assign MemStore.micro updates r else r)
           <$> MemStore.rows db).
Proof.
  mem. destruct (mjoin (head (MemStore.faults db))) as [[msg|msg|msg]|];
    [by left | | |]; (case_decide; [by left|]); [by left | |];
    cbn [MemStore.rows]; case_decide; try by left.
  right. done.
Qed.

Lemma Updates_accepted model updates (db : MemStore.DB) :
  Error (snd (fst (Updates model updates db))) = None →
  mjoin (head (MemStore.faults db)) = None
  ∧ ¬ MemStore.title_clash (ID model) updates (MemStore.rows db)
  ∧ snd (Updates model updates db) = MemStore.assign id updates model
  ∧ MemStore.faults (fst (fst (Updates model updates db)))
    = tail (MemStore.faults db)
  ∧ MemStore.rows (fst (fst (Updates model updates db)))
    = (fun r => if decide (ID r = ID model)
                then MemStore.assign MemStore.micro updates r else r)
        <$> MemStore.rows db.
Proof.
  mem. destruct (mjoin (head (MemStore.faults db))) as [[msg|msg|msg]|];
    [done | | |]; (case_decide; [done|]); [done | |];
    cbn [MemStore.rows]; case_decide; done.
Qed.

(** ** Update on the table *)

Lemma patched_ID id p now r : ID (patched id p now r) = ID r.
Proof. unfold patched. by case_decide. Qed.

Lemma UpdateNote_accepted c now (db db1 : MemStore.DB) payload found note :
  BodyParser c = inr (Some payload) →
  First (Params c "noteId") db = (db1, found, note) →
  Error found = None →
  Error (snd (fst (Updates note (updates_of payload now) db1))) = None →
  snd (UpdateNote c now db)
    = JSON StatusOK
           {[ "status" := VString "success";
              "data" := VMap {[ "note" := VNote (MemStore.assign id (updates_of payload now) note) ]} ]}
  ∧ MemStore.rows (fst (UpdateNote c now db))
    = patched (ID note) payload now <$> MemStore.rows db
  ∧ MemStore.faults (fst (UpdateNote c now db))
    = tail (tail (MemStore.faults db)).
Proof.
  intros Hb HF He Hw.
  destruct (First_found _ _ _ _ _ HF He) as (_ & _ & _ & _ & Hrows & Hfaults).
  destruct (Updates_accepted _ _ _ Hw) as (_ & _ & Hmodel & Hfaults' & Hrows').
  unfold UpdateNote. rewrite Hb, HF, He.
  destruct (Updates note (updates_of payload now) db1) as [[db2 result] note'].
  cbn [fst snd] in *. subst note'. rewrite Hrows', Hfaults', Hrows, Hfaults. done.
Qed.

Lemma UpdateNote_rows c now (db : MemStore.DB) :
  MemStore.rows (fst (UpdateNote c now db)) = MemStore.rows db
  ∨ ∃ p note,
      BodyParser c = inr (Some p)
      ∧ note ∈ MemStore.rows db
      ∧ uuid_in (Params c "noteId") = Some (ID note)
      ∧ ¬ MemStore.title_clash (ID note) (updates_of p now) (MemStore.rows db)
      ∧ MemStore.rows (fst (UpdateNote c now db))
        = patched (ID note) p now <$> MemStore.rows db.
Proof.
  unfold UpdateNote. destruct (BodyParser c) as [err|payload] eqn:Hb; [by left|].
  pose proof (First_state (Params c "noteId") db) as (Hrows & _).
  destruct (First (Params c "noteId") db) as [[db1 found] note] eqn:HF.
  cbn [fst snd] in Hrows.
  destruct (Error found) as [err|] eqn:He.
  { left. by case_decide. }
  destruct (First_found _ _ _ _ _ HF He) as (_ & Hid & _ & Hin & _ & _).
  destruct payload as [p|]; [|by left].
  pose proof (Updates_rows note (updates_of p now) db1) as Hw.
  destruct (Updates note (updates_of p now) db1) as [[db2 result] note'].
  cbn [fst snd] in *. rewrite Hrows in Hw.
  destruct Hw as [->|(_ & Hfree & ->)]; [by left|].
  right. by exists p, note.
Qed.

(** ** List: paging *)

Lemma FindNotes_call {T} (c : Ctx T) (db : MemStore.DB) :
  let intPage := fst (Atoi (Query c "page" "1")) in
  let intLimit := fst (Atoi (Query c "limit" "10")) in
  let offset := int_mul (int_sub intPage 1) intLimit in
  fst (FindNotes c db) = fst (fst (Find intLimit offset db))
  ∧ snd (FindNotes c db)
    = match Error (snd (fst (Find intLimit offset db))) with
      | Some e =>
          JSON StatusBadGateway
               {[ "status" := VString "error"; "message" := VError e ]}
      | None =>
          JSON StatusOK
               {[ "status" := VString "success";
                  "results" := VInt (Z.of_nat (length (snd (Find intLimit offset db))));
                  "notes" := VNotes (snd (Find intLimit offset db)) ]}
      end.
Proof.
  cbv zeta. unfold FindNotes.
  destruct (Find _ _ db) as [[db' results] notes]. cbn [fst snd].
  by destruct (Error results).
Qed.

Lemma Find_log limit offset (db : MemStore.DB) :
  MemStore.log (fst (fst (Find limit offset db)))
    = (MemStore.log db ++
       [MemStore.SelectPage (MemStore.limit_clause limit)
                            (MemStore.offset_clause offset)])%list.
Proof. mem. by destruct (mjoin (head (MemStore.faults db))). Qed.

Lemma Find_answer limit offset (db : MemStore.DB) :
  MemStore.rows (fst (fst (Find limit offset db))) = MemStore.rows db
  ∧ MemStore.faults (fst (fst (Find limit offset db))) = tail (MemStore.faults db)
  ∧ (snd (fst (Find limit offset db)), snd (Find limit offset db))
    = match mjoin (head (MemStore.faults db)) with
      | Some f => (MemStore.failed (MemStore.fault_text f), [])
      | None =>
          (MemStore.affected (length (MemStore.page limit offset (MemStore.rows db))),
           MemStore.page limit offset (MemStore.rows db))
      end.
Proof. mem. by destruct (mjoin (head (MemStore.faults db))). Qed.

Lemma numeric_all_digits v : numeric v → all_digits (unsigned v).
Proof.
  intros (sign & ds & -> & Hsign & Hne & Hall).
  destruct Hsign as [-> | [-> | ->]]; [|done..].
  rewrite append_nil. destruct ds as [|c ds]; [done|]. cbn.
  destruct (Ascii.eqb c "+" || Ascii.eqb c "-"); [by destruct Hall | done].
Qed.




(** ** Create on the notes table *)

(** C5, as the spec states it, fails: a valid payload whose title is
    already held by a stored note is answered 409, on a healthy backend,
    and nothing is stored. *)
Lemma CreateNoteHandler_valid_payload_conflict :
  let payload := mkCreateNoteSchema "A" "y" "" false in
  cTitle payload ≠ "" ∧ cContent payload ≠ ""
  ∧ MemStore.healthy Sample.one
  ∧ status_of (snd (CreateNoteHandler (Sample.post payload) 300 Sample.one))
      = Some StatusConflict
  ∧ MemStore.rows (fst (CreateNoteHandler (Sample.post payload) 300 Sample.one))
      = [Sample.noteA].
Proof. repeat split; done. Qed.

(** C5 (amended).  For every valid payload (title and content not
    empty) whose insert the store accepts, CreateNoteHandler answers 201
    with a note whose title, content, category and published are those
    of the payload and whose createdAt equals its updatedAt; the row
    added to the table is that note, its two times kept to the
    microsecond. *)
Theorem CreateNoteHandler_created c now (db : MemStore.DB) payload :
  BodyParser c = inr (Some payload) →
  cTitle payload ≠ "" →
  cContent payload ≠ "" →
  Error (snd (fst (Create (newNote_of payload now) db))) = None →
  ∃ note,
    snd (CreateNoteHandler c now db)
      = JSON StatusCreated
             {[ "status" := VString "success";
                "data" := VMap {[ "note" := VNote note ]} ]}
    ∧ Title note = cTitle payload
    ∧ Content note = cContent payload
    ∧ Category note = cCategory payload
    ∧ Published note = cPublished payload
    ∧ CreatedAt note = UpdatedAt note
    ∧ MemStore.rows (fst (CreateNoteHandler c now db))
        = (MemStore.rows db ++ [MemStore.stored note])%list.
Proof.
  intros Hb Ht Hc.
  assert (Hv : ValidateStruct (Some payload) = Some [])
    by by apply ValidateStruct_valid.
  unfold CreateNoteHandler. rewrite Hb, Hv. mem.
  destruct (mjoin (head (MemStore.faults db))) as [[msg|msg|msg]|]; [done..| |];
    cbn [MemStore.rows MemStore.uuids MemStore.drawn];
    repeat case_decide; try done.
  intros _. eexists. split; [reflexivity|]. done.
Qed.

Lemma CreateNoteHandler_created_witness :
  ∃ note,
    snd (CreateNoteHandler
           (Sample.post (mkCreateNoteSchema "C" "z" "work" true)) 300999 Sample.two)
      = JSON StatusCreated
             {[ "status" := VString "success";
                "data" := VMap {[ "note" := VNote note ]} ]}
    ∧ Title note = "C"
    ∧ Content note = "z"
    ∧ Category note = "work"
    ∧ Published note = true
    ∧ CreatedAt note = UpdatedAt note
    ∧ MemStore.rows
        (fst (CreateNoteHandler
                (Sample.post (mkCreateNoteSchema "C" "z" "work" true)) 300999
                Sample.two))
        = [Sample.noteA; Sample.noteB; MemStore.stored note].
Proof.
  apply (CreateNoteHandler_created
           (Sample.post (mkCreateNoteSchema "C" "z" "work" true)) 300999 Sample.two
           (mkCreateNoteSchema "C" "z" "work" true));
    [reflexivity | done | done | reflexivity].
Defined.

(** ** Update: which fields of which rows change *)

(** C4, as the spec states it, fails: [published] explicitly false on the
    stored note [id1], whose published is true, together with a title
    that the note [id2] holds.  The unique index refuses the whole
    statement; the answer is 200 and the stored note is still
    published. *)
Lemma published_false_write_refused :
  let payload := mkUpdateNoteSchema "B" "" "" (Some false) in
  let c := Sample.patch Sample.id1 payload in
  MemStore.healthy Sample.two
  ∧ Sample.noteA ∈ MemStore.rows Sample.two
  ∧ ID Sample.noteA = Params c "noteId"
  ∧ Published Sample.noteA = true
  ∧ uPublished payload = Some false
  ∧ status_of (snd (UpdateNote c 300 Sample.two)) = Some StatusOK
  ∧ MemStore.rows (fst (UpdateNote c 300 Sample.two))
      = [Sample.noteA; Sample.noteB].
Proof.
  repeat split; try done. apply list_elem_of_here.
Qed.

(** C4 (amended).  When the store carries out the lookup and the write
    of an update whose [published] is present with value [b] (in
    particular false, over a stored true), the note found, which is a
    stored note, has published equal to [b] afterwards and every other
    note is as it was; an update whose [published] is absent leaves the
    stored published value of every note as it was, whatever the store
    does. *)
Theorem UpdateNote_published c now (db : MemStore.DB) payload :
  BodyParser c = inr (Some payload) →
  (∀ b db1 found note,
     uPublished payload = Some b →
     First (Params c "noteId") db = (db1, found, note) →
     Error found = None →
     Error (snd (fst (Updates note (updates_of payload now) db1))) = None →
     note ∈ MemStore.rows db
     ∧ Forall2 (fun n n' =>
                  ID n' = ID n
                  ∧ (ID n = ID note → Published n' = b)
                  ∧ (ID n ≠ ID note → n' = n))
               (MemStore.rows db) (MemStore.rows (fst (UpdateNote c now db))))
  ∧ (uPublished payload = None →
     Forall2 (fun n n' => ID n' = ID n ∧ Published n' = Published n)
             (MemStore.rows db) (MemStore.rows (fst (UpdateNote c now db)))).
Proof.
  intros Hb. split.
  - intros b db1 found note Hp HF He Hw.
    destruct (First_found _ _ _ _ _ HF He) as (_ & _ & _ & Hin & _).
    destruct (UpdateNote_accepted c now db db1 payload found note Hb HF He Hw)
      as (_ & -> & _).
    split; [done|].
    apply Forall2_fmap_self. intros n _. unfold patched.
    case_decide; [|done]. rewrite assign_updates_of, Hp. done.
  - intros Hp. destruct (UpdateNote_rows c now db)
      as [->|(p & note & Hb' & _ & _ & _ & ->)].
    + by apply Forall2_self.
    + assert (p = payload) as -> by congruence.
      apply Forall2_fmap_self. intros n _. unfold patched.
      case_decide; [|done]. rewrite assign_updates_of, Hp. done.
Qed.

Lemma UpdateNote_published_witness :
  let payload := mkUpdateNoteSchema "" "" "" (Some false) in
  let c := Sample.patch "3F2C8A10-9B7E-4C1D-8A55-1D2E3F4A5B01" payload in
  Published Sample.noteA = true
  ∧ Forall2 (fun n n' =>
               ID n' = ID n
               ∧ (ID n = Sample.id1 → Published n' = false)
               ∧ (ID n ≠ Sample.id1 → n' = n))
            [Sample.noteA; Sample.noteB]
            (MemStore.rows (fst (UpdateNote c 300 Sample.two))).
Proof.
  intros payload c. split; [reflexivity|].
  destruct (UpdateNote_published c 300 Sample.two payload) as [Hset _];
    [reflexivity|].
  apply (Hset false (fst (fst (First (Params c "noteId") Sample.two)))
               (snd (fst (First (Params c "noteId") Sample.two)))
               Sample.noteA); reflexivity.
Defined.

(** C6, as the spec states it, fails: the stored note [id1] and the
    payload that sets only [category], with a backend that answers the
    lookup and then fails on the write.  The answer is 200 and the
    stored note has its old category. *)
Lemma only_category_write_not_stored :
  let payload := mkUpdateNoteSchema "" "" "work" None in
  let c := Sample.patch Sample.id1 payload in
  let db :=
    Sample.failing [None; Some "write tcp: connection reset by peer"] Sample.one in
  Sample.noteA ∈ MemStore.rows db
  ∧ ID Sample.noteA = Params c "noteId"
  ∧ Category Sample.noteA ≠ "work"
  ∧ status_of (snd (UpdateNote c 300 db)) = Some StatusOK
  ∧ MemStore.rows (fst (UpdateNote c 300 db)) = [Sample.noteA].
Proof.
  repeat split; try done. apply list_elem_of_here.
Qed.

(** C6 (amended).  When the store carries out the lookup and the write
    of an update whose payload sets only [category] (title and content
    empty, published absent), the answer is 200; the note found, which is
    a stored note, has the new category and [updatedAt] at the time of
    the request, to the microsecond, and its title, content, published,
    id and createdAt are as before; every other note is untouched. *)
Theorem UpdateNote_only_category c now (db db1 : MemStore.DB) payload found note :
  BodyParser c = inr (Some payload) →
  uTitle payload = "" →
  uContent payload = "" →
  uPublished payload = None →
  uCategory payload ≠ "" →
  First (Params c "noteId") db = (db1, found, note) →
  Error found = None →
  Error (snd (fst (Updates note (updates_of payload now) db1))) = None →
  status_of (snd (UpdateNote c now db)) = Some StatusOK
  ∧ note ∈ MemStore.rows db
  ∧ Forall2 (fun n n' =>
               if decide (ID n = ID note) then
                 Category n' = uCategory payload
                 ∧ UpdatedAt n' = MemStore.micro now
                 ∧ Title n' = Title n
                 ∧ Content n' = Content n
                 ∧ Published n' = Published n
                 ∧ ID n' = ID n
                 ∧ CreatedAt n' = CreatedAt n
               else n' = n)
            (MemStore.rows db) (MemStore.rows (fst (UpdateNote c now db))).
Proof.
  intros Hb Ht Hc Hp Hcat HF He Hw.
  destruct (First_found _ _ _ _ _ HF He) as (_ & _ & _ & Hin & _).
  destruct (UpdateNote_accepted c now db db1 payload found note Hb HF He Hw)
    as (-> & -> & _).
  split; [done|]. split; [done|].
  apply Forall2_fmap_self. intros n _. unfold patched.
  case_decide; [|done]. rewrite assign_updates_of, Ht, Hc, Hp. cbn.
  by case_decide.
Qed.

Lemma UpdateNote_only_category_witness :
  let c := Sample.patch Sample.id2 (mkUpdateNoteSchema "" "" "work" None) in
  status_of (snd (UpdateNote c 300999 Sample.two)) = Some StatusOK
  ∧ MemStore.rows (fst (UpdateNote c 300999 Sample.two))
      = [Sample.noteA; mkNote Sample.id2 "B" "y" "work" false 200000 300000].
Proof.
  intros c.
  destruct (UpdateNote_only_category c 300999 Sample.two
              (fst (fst (First (Params c "noteId") Sample.two)))
              (mkUpdateNoteSchema "" "" "work" None)
              (snd (fst (First (Params c "noteId") Sample.two)))
              Sample.noteB)
    as (Hstatus & _);
    [reflexivity | reflexivity | reflexivity | reflexivity | done
     | reflexivity | reflexivity | reflexivity |].
  split; [exact Hstatus | reflexivity].
Defined.

(** C10, as the spec states it, fails: the stored note [id1] and the
    payload with every field empty.  With a backend that fails on the
    lookup the answer is 502; with one that answers the lookup and fails
    on the write the answer is 200 and the stored updatedAt is the old
    one. *)
Lemma empty_payload_store_fails :
  let c := Sample.patch Sample.id1 (mkUpdateNoteSchema "" "" "" None) in
  let down := Sample.failing [Some "dial tcp 127.0.0.1:5432: connect: connection refused"] Sample.one in
  let lost := Sample.failing [None; Some "write tcp: connection reset by peer"] Sample.one in
  Sample.noteA ∈ MemStore.rows Sample.one
  ∧ ID Sample.noteA = Params c "noteId"
  ∧ status_of (snd (UpdateNote c 300999 down)) = Some StatusBadGateway
  ∧ status_of (snd (UpdateNote c 300999 lost)) = Some StatusOK
  ∧ MemStore.rows (fst (UpdateNote c 300999 lost)) = [Sample.noteA]
  ∧ UpdatedAt Sample.noteA ≠ MemStore.micro 300999.
Proof.
  repeat split; try done. apply list_elem_of_here.
Qed.

(** C10 (amended).  When the store carries out the lookup and the write
    of an update whose payload has every field empty or absent, the
    answer is 200, and the note found, which is a stored note, changes
    in [updatedAt] only, which becomes the time of the request, to the
    microsecond; every other note is untouched. *)
Theorem UpdateNote_empty_payload c now (db db1 : MemStore.DB) payload found note :
  BodyParser c = inr (Some payload) →
  uTitle payload = "" →
  uContent payload = "" →
  uCategory payload = "" →
  uPublished payload = None →
  First (Params c "noteId") db = (db1, found, note) →
  Error found = None →
  Error (snd (fst (Updates note (updates_of payload now) db1))) = None →
  status_of (snd (UpdateNote c now db)) = Some StatusOK
  ∧ note ∈ MemStore.rows db
  ∧ Forall2 (fun n n' =>
               if decide (ID n = ID note) then
                 n' = mkNote (ID n) (Title n) (Content n) (Category n)
                             (Published n) (CreatedAt n) (MemStore.micro now)
               else n' = n)
            (MemStore.rows db) (MemStore.rows (fst (UpdateNote c now db))).
Proof.
  intros Hb Ht Hc Hcat Hp HF He Hw.
  destruct (First_found _ _ _ _ _ HF He) as (_ & _ & _ & Hin & _).
  destruct (UpdateNote_accepted c now db db1 payload found note Hb HF He Hw)
    as (-> & -> & _).
  split; [done|]. split; [done|].
  apply Forall2_fmap_self. intros n _. unfold patched.
  case_decide; [|done]. by rewrite assign_updates_of, Ht, Hc, Hcat, Hp.
Qed.

Lemma UpdateNote_empty_payload_witness :
  let c := Sample.patch Sample.id1 (mkUpdateNoteSchema "" "" "" None) in
  status_of (snd (UpdateNote c 300999 Sample.two)) = Some StatusOK
  ∧ MemStore.rows (fst (UpdateNote c 300999 Sample.two))
      = [mkNote Sample.id1 "A" "x" "" true 100000 300000; Sample.noteB].
Proof.
  intros c.
  destruct (UpdateNote_empty_payload c 300999 Sample.two
              (fst (fst (First (Params c "noteId") Sample.two)))
              (mkUpdateNoteSchema "" "" "" None)
              (snd (fst (First (Params c "noteId") Sample.two)))
              Sample.noteA)
    as (Hstatus & _);
    [reflexivity | reflexivity | reflexivity | reflexivity | reflexivity
     | reflexivity | reflexivity | reflexivity |].
  split; [exact Hstatus | reflexivity].
Defined.

(** C9.  In an update request, a title, content or category that decodes
    to the empty string is not put in the map of updates and the stored
    value is left as it was; and whatever the request, no note's title,
    content or category is empty afterwards unless it was empty
    before. *)
Theorem UpdateNote_empty_is_absent c now (db : MemStore.DB) :
  (∀ payload,
     BodyParser c = inr (Some payload) →
     (uTitle payload = "" → updates_of payload now !! "title" = None)
     ∧ (uContent payload = "" → updates_of payload now !! "content" = None)
     ∧ (uCategory payload = "" → updates_of payload now !! "category" = None)
     ∧ Forall2 (fun n n' =>
                  (uTitle payload = "" → Title n' = Title n)
                  ∧ (uContent payload = "" → Content n' = Content n)
                  ∧ (uCategory payload = "" → Category n' = Category n))
               (MemStore.rows db) (MemStore.rows (fst (UpdateNote c now db))))
  ∧ Forall2 (fun n n' =>
               ID n' = ID n
               ∧ (Title n' = "" → Title n = "")
               ∧ (Content n' = "" → Content n = "")
               ∧ (Category n' = "" → Category n = ""))
            (MemStore.rows db) (MemStore.rows (fst (UpdateNote c now db))).
Proof.
  split.
  - intros payload Hb. split; [|split; [|split]].
    + intros Ht. rewrite updates_of_title. by case_decide.
    + intros Hc. rewrite updates_of_content. by case_decide.
    + intros Hc. rewrite updates_of_category. by case_decide.
    + destruct (UpdateNote_rows c now db)
        as [->|(p & note & Hb' & _ & _ & _ & ->)].
      * by apply Forall2_self.
      * assert (p = payload) as -> by congruence.
        apply Forall2_fmap_self. intros n _. unfold patched.
        case_decide; [|done]. rewrite assign_updates_of. cbn.
        repeat split; intros ?; by case_decide.
  - destruct (UpdateNote_rows c now db)
      as [->|(p & note & Hb' & _ & _ & _ & ->)].
    + by apply Forall2_self.
    + apply Forall2_fmap_self. intros n _. unfold patched.
      case_decide; [|done]. rewrite assign_updates_of. cbn.
      repeat split; case_decide; done.
Qed.

Lemma UpdateNote_empty_is_absent_witness :
  let payload := mkUpdateNoteSchema "" "new text" "" None in
  let c := Sample.patch Sample.id2 payload in
  updates_of payload 300999 !! "title" = None
  ∧ updates_of payload 300999 !! "category" = None
  ∧ MemStore.rows (fst (UpdateNote c 300999 Sample.two))
      = [Sample.noteA;
         mkNote Sample.id2 "B" "new text" "home" false 200000 300000].
Proof.
  intros payload c.
  destruct (UpdateNote_empty_is_absent c 300999 Sample.two) as [Hreq _].
  destruct (Hreq payload) as (Ht & _ & Hcat & _); [reflexivity|].
  split; [by apply Ht | split; [by apply Hcat | reflexivity]].
Defined.
(** * Further properties of the handlers *)

(** ** Requests that are turned away before the store *)

Section Rejected.
Context {DB : Type} `{Gorm DB}.

(** A create request that does not decode, or whose title or content is
    empty, is answered 400 and the database is left as it was: no call
    is made on it. *)
Theorem CreateNoteHandler_rejected_untouched c now (db : DB) :
  (∃ err, BodyParser c = inl err)
  ∨ (∃ payload, BodyParser c = inr (Some payload)
                ∧ (cTitle payload = "" ∨ cContent payload = "")) →
  fst (CreateNoteHandler c now db) = db
  ∧ status_of (snd (CreateNoteHandler c now db)) = Some StatusBadRequest.
Proof.
  unfold CreateNoteHandler.
  intros [[err ->]|(payload & -> & Hempty)]; [done|].
  rewrite ValidateStruct_create.
  destruct Hempty as [-> | ->].
  - by destruct (decide (cContent payload = "")).
  - by destruct (decide (cTitle payload = "")).
Qed.

(** An update request that does not decode is answered 400 with the
    text of the decode error, before the note is looked up. *)
Theorem UpdateNote_undecoded_untouched c now (db : DB) err :
  BodyParser c = inl err →
  UpdateNote c now db
    = (db, JSON StatusBadRequest
             {[ "status" := VString "fail"; "message" := VString err ]}).
Proof. unfold UpdateNote. by intros ->. Qed.

End Rejected.

Lemma CreateNoteHandler_rejected_untouched_witness :
  let c := Sample.post (mkCreateNoteSchema "A" "" "" true) in
  MemStore.log (fst (CreateNoteHandler c 300 Sample.two)) = []
  ∧ status_of (snd (CreateNoteHandler c 300 Sample.two)) = Some StatusBadRequest.
Proof.
  intros c.
  destruct (CreateNoteHandler_rejected_untouched c 300 Sample.two) as [-> Hs].
  - right. exists (mkCreateNoteSchema "A" "" "" true).
    split; [reflexivity | by right].
  - split; [reflexivity | exact Hs].
Defined.

Lemma UpdateNote_undecoded_untouched_witness :
  UpdateNote (mkCtx {[ "noteId" := Sample.id1 ]} ∅ (inl "unexpected end of JSON input"))
             300 Sample.two
    = (Sample.two,
       JSON StatusBadRequest
            {[ "status" := VString "fail";
               "message" := VString "unexpected end of JSON input" ]}).
Proof.
  apply (UpdateNote_undecoded_untouched
           (mkCtx {[ "noteId" := Sample.id1 ]} ∅ (inl "unexpected end of JSON input"))
           300 Sample.two).
  reflexivity.
Defined.

(** ** Status codes and panics, for any backend *)

Section Statuses.
Context {DB : Type} `{Gorm DB}.

(** The status codes each handler can send. *)
Theorem handlers_status_codes now (db : DB) s :
  (∀ c, status_of (snd (CreateNoteHandler c now db)) = Some s →
        s = StatusCreated ∨ s = StatusBadRequest
        ∨ s = StatusConflict ∨ s = StatusBadGateway)
  ∧ (∀ T (c : Ctx T), status_of (snd (FindNotes c db)) = Some s →
        s = StatusOK ∨ s = StatusBadGateway)
  ∧ (∀ c, status_of (snd (UpdateNote c now db)) = Some s →
        s = StatusOK ∨ s = StatusBadRequest
        ∨ s = StatusNotFound ∨ s = StatusBadGateway)
  ∧ (∀ T (c : Ctx T), status_of (snd (FindNoteById c db)) = Some s →
        s = StatusOK ∨ s = StatusNotFound ∨ s = StatusBadGateway)
  ∧ (∀ T (c : Ctx T), status_of (snd (DeleteNote c db)) = Some s →
        s = StatusNoContent ∨ s = StatusNotFound ∨ s = StatusBadGateway).
Proof.
  repeat split.
  - intros c. unfold CreateNoteHandler.
    destruct (BodyParser c) as [err|[payload|]]; [intros [= <-]; auto| |done].
    destruct (ValidateStruct (Some payload)) as [[|e errors]|];
      [|intros [= <-]; auto|done].
    destruct (Create _ db) as [[db' result] note].
    destruct (Error result) as [e|]; [destruct (Contains _ _)|];
      intros [= <-]; auto.
  - intros T c. unfold FindNotes.
    destruct (Find _ _ db) as [[db' results] notes].
    destruct (Error results); intros [= <-]; auto.
  - intros c. unfold UpdateNote.
    destruct (BodyParser c) as [err|payload]; [intros [= <-]; auto|].
    destruct (First _ db) as [[db1 result] note].
    destruct (Error result) as [e|]; [case_decide; intros [= <-]; auto|].
    destruct payload as [payload|]; [|done].
    destruct (Updates _ _ _) as [[db2 ?] note']. intros [= <-]; auto.
  - intros T c. unfold FindNoteById.
    destruct (First _ db) as [[db1 result] note].
    destruct (Error result) as [e|]; [case_decide|]; intros [= <-]; auto.
  - intros T c. unfold DeleteNote.
    destruct (Delete _ db) as [db' result].
    destruct (RowsAffected result =? 0); [|destruct (Error result)];
      intros [= <-]; auto.
Qed.

(** A handler panics only on a body that decodes to a nil payload (the
    JSON text [null]): CreateNoteHandler always, UpdateNote once the
    note has been found.  The handlers without a payload never panic. *)
Theorem handlers_panic now (db : DB) :
  (∀ c, snd (CreateNoteHandler c now db) = Panic ↔ BodyParser c = inr None)
  ∧ (∀ c, snd (UpdateNote c now db) = Panic
          ↔ BodyParser c = inr None
            ∧ Error (snd (fst (First (Params c "noteId") db))) = None)
  ∧ (∀ T (c : Ctx T), snd (FindNotes c db) ≠ Panic)
  ∧ (∀ T (c : Ctx T), snd (FindNoteById c db) ≠ Panic)
  ∧ (∀ T (c : Ctx T), snd (DeleteNote c db) ≠ Panic).
Proof.
  split; [|split; [|split; [|split]]].
  - intros c. unfold CreateNoteHandler.
    destruct (BodyParser c) as [err|[payload|]]; [done| |done].
    rewrite ValidateStruct_create.
    destruct (decide (cTitle payload = "")), (decide (cContent payload = ""));
      try done.
    cbn [app]. destruct (Create _ db) as [[db' result] note].
    destruct (Error result) as [e|]; [destruct (Contains _ _)|]; done.
  - intros c. unfold UpdateNote.
    destruct (BodyParser c) as [err|payload]; [by split; [|intros []]|].
    destruct (First _ db) as [[db1 result] note]. cbn [fst snd].
    destruct (Error result) as [e|].
    { case_decide; (split; [done | by intros []]). }
    destruct payload as [payload|]; [|done].
    destruct (Updates _ _ _) as [[db2 ?] note'].
    split; [done | by intros []].
  - intros T c. unfold FindNotes.
    destruct (Find _ _ db) as [[db' results] notes].
    by destruct (Error results).
  - intros T c. unfold FindNoteById.
    destruct (First _ db) as [[db1 result] note].
    destruct (Error result) as [e|]; [by case_decide|done].
  - intros T c. unfold DeleteNote. destruct (Delete _ db) as [db' result].
    destruct (RowsAffected result =? 0); [|destruct (Error result)]; done.
Qed.

End Statuses.

Lemma handlers_status_codes_witness :
  StatusNotFound = StatusNoContent ∨ StatusNotFound = StatusNotFound
  ∨ StatusNotFound = StatusBadGateway.
Proof.
  destruct (handlers_status_codes 300 Sample.two StatusNotFound)
    as (_ & _ & _ & _ & Hdelete).
  apply (Hdelete unit (Sample.bare Sample.id3 ∅)). reflexivity.
Defined.

Lemma handlers_panic_witness :
  snd (CreateNoteHandler (mkCtx ∅ ∅ (inr None)) 300 Sample.two) = Panic
  ∧ snd (UpdateNote (mkCtx {[ "noteId" := Sample.id1 ]} ∅ (inr None)) 300 Sample.two)
    = Panic.
Proof.
  destruct (handlers_panic 300 Sample.two) as (Hcreate & Hupdate & _).
  split.
  - by apply Hcreate.
  - apply Hupdate. split; reflexivity.
Defined.


(** ** The table under each handler *)

Lemma filter_none_id (id : UUID) (rs : list Note) :
  filter (fun r => ID r = id) rs = [] →
  filter (fun r => ID r ≠ id) rs = rs.
Proof.
  induction rs as [|r rs IH]; [done|].
  rewrite !filter_cons. destruct (decide (ID r = id)); [done|].
  intros Hnil. destruct (decide (ID r ≠ id)); [|done]. by rewrite IH.
Qed.

Lemma filter_id_absent (id : UUID) (rs : list Note) :
  (id ∉ ID <$> rs) → filter (fun r => ID r = id) rs = [].
Proof.
  intros Hnot. induction rs as [|r rs IH]; [done|].
  rewrite fmap_cons, not_elem_of_cons in Hnot. destruct Hnot as [Hne Hnot].
  rewrite filter_cons. destruct (decide (ID r = id)); [done|]. by apply IH.
Qed.


Lemma filter_id_gone (id : UUID) (rs : list Note) :
  filter (fun r => ID r = id) (filter (fun r => ID r ≠ id) rs) = [].
Proof.
  induction rs as [|r rs IH]; [done|].
  rewrite filter_cons. destruct (decide (ID r ≠ id)) as [Hne|]; [|done].
  rewrite filter_cons. by destruct (decide (ID r = id)).
Qed.

Lemma filter_id_fmap (f : Note → Note) (id : UUID) (rs : list Note) :
  (∀ r, ID (f r) = ID r) →
  filter (fun r => ID r = id) (f <$> rs)
    = f <$> filter (fun r => ID r = id) rs.
Proof.
  intros Hid. induction rs as [|r rs IH]; [done|].
  rewrite fmap_cons, !filter_cons, Hid.
  destruct (decide (ID r = id)); by rewrite IH.
Qed.


Lemma CreateNoteHandler_table c now (db : MemStore.DB) :
  (∃ payload,
     let note := mkNote (fst (MemStore.draw db))
                        (cTitle payload) (cContent payload) (cCategory payload)
                        (cPublished payload) now now in
     BodyParser c = inr (Some payload)
     ∧ cTitle payload ≠ "" ∧ cContent payload ≠ ""
     ∧ (ID note ∉ ID <$> MemStore.rows db)
     ∧ (Title note ∉ Title <$> MemStore.rows db)
     ∧ mjoin (head (MemStore.faults db)) = None
     ∧ snd (CreateNoteHandler c now db)
         = JSON StatusCreated
                {[ "status" := VString "success";
                   "data" := VMap {[ "note" := VNote note ]} ]}
     ∧ MemStore.rows (fst (CreateNoteHandler c now db))
         = (MemStore.rows db ++ [MemStore.stored note])%list
     ∧ MemStore.faults (fst (CreateNoteHandler c now db))
         = tail (MemStore.faults db))
  ∨ (status_of (snd (CreateNoteHandler c now db)) ≠ Some StatusCreated
     ∧ MemStore.rows (fst (CreateNoteHandler c now db)) = MemStore.rows db).
Proof.
  unfold CreateNoteHandler.
  destruct (BodyParser c) as [err|[payload|]] eqn:Hb; [by right| |by right].
  rewrite ValidateStruct_create.
  destruct (decide (cTitle payload = "")), (decide (cContent payload = ""));
    [by right..|].
  cbn [app]. mem.
  destruct (mjoin (head (MemStore.faults db))) as [[msg|msg|msg]|] eqn:Hfault.
  - right. cbn. by destruct (Contains _ _).
  - right. cbn. by destruct (Contains _ _).
  - right. cbn [MemStore.rows MemStore.uuids MemStore.drawn newNote_of Title].
    repeat case_decide; cbn; first [done | by destruct (Contains _ _)].
  - cbn [MemStore.rows MemStore.uuids MemStore.drawn newNote_of Title].
    case_decide; [by right|]. case_decide; [by right|].
    left. by exists payload.
Qed.

Lemma DeleteNote_table {T} (c : Ctx T) (db : MemStore.DB) :
  (snd (DeleteNote c db) = SendStatus StatusNoContent
   ∧ mjoin (head (MemStore.faults db)) = None
   ∧ MemStore.faults (fst (DeleteNote c db)) = tail (MemStore.faults db)
   ∧ ∃ u, uuid_in (Params c "noteId") = Some u
          ∧ filter (fun r => ID r = u) (MemStore.rows db) ≠ []
          ∧ MemStore.rows (fst (DeleteNote c db))
            = filter (fun r => ID r ≠ u) (MemStore.rows db))
  ∨ (status_of (snd (DeleteNote c db)) = Some StatusNotFound
     ∧ MemStore.rows (fst (DeleteNote c db)) = MemStore.rows db
     ∧ MemStore.faults (fst (DeleteNote c db)) = tail (MemStore.faults db))
  ∨ (status_of (snd (DeleteNote c db)) = Some StatusBadGateway
     ∧ MemStore.rows (fst (DeleteNote c db)) = MemStore.rows db
     ∧ mjoin (head (MemStore.faults db)) ≠ None).
Proof.
  unfold DeleteNote. mem.
  destruct (mjoin (head (MemStore.faults db))) as [[msg|msg|msg]|];
    [by right; left | by right; left | |];
    (destruct (uuid_in (Params c "noteId")) as [u|]; [|by right; left]);
    cbn [MemStore.rows MemStore.affected MemStore.uncommitted RowsAffected Error];
    destruct (filter (fun r => ID r = u) (MemStore.rows db)) as [|r rs] eqn:Hf.
  - right; left. done.
  - right; right. done.
  - right; left. cbn. by rewrite filter_none_id.
  - left. repeat split; try done. exists u. by rewrite Hf.
Qed.

Lemma DeleteNote_none {T} (c : Ctx T) (db : MemStore.DB) u :
  mjoin (head (MemStore.faults db)) = None →
  uuid_in (Params c "noteId") = Some u →
  filter (fun r => ID r = u) (MemStore.rows db) = [] →
  status_of (snd (DeleteNote c db)) = Some StatusNotFound.
Proof.
  intros Hf Hu Hnone. unfold DeleteNote. mem. rewrite Hf, Hu.
  cbn [MemStore.rows]. by rewrite Hnone.
Qed.

Lemma FindNoteById_table {T} (c : Ctx T) (db : MemStore.DB) :
  MemStore.rows (fst (FindNoteById c db)) = MemStore.rows db
  ∧ MemStore.faults (fst (FindNoteById c db)) = tail (MemStore.faults db)
  ∧ snd (FindNoteById c db)
    = match mjoin (head (MemStore.faults db)) with
      | Some f =>
          JSON StatusBadGateway
               {[ "status" := VString "fail";
                  "message" := VString (MemStore.fault_text f) ]}
      | None =>
          match uuid_in (Params c "noteId") with
          | None =>
              JSON StatusBadGateway
                   {[ "status" := VString "fail";
                      "message" := VString (MemStore.not_a_uuid (Params c "noteId")) ]}
          | Some u =>
              match head (filter (fun r => ID r = u) (MemStore.rows db)) with
              | Some n =>
                  JSON StatusOK
                       {[ "status" := VString "success";
                          "data" := VMap {[ "note" := VNote n ]} ]}
              | None =>
                  JSON StatusNotFound
                       {[ "status" := VString "fail";
                          "message" := VString "No note with that ID exists" ]}
              end
          end
      end.
Proof.
  unfold FindNoteById. mem.
  destruct (mjoin (head (MemStore.faults db))); [done|].
  destruct (uuid_in (Params c "noteId")); [|done].
  cbn [MemStore.rows].
  by destruct (head (filter _ (MemStore.rows db))).
Qed.

Lemma FindNotes_table {T} (c : Ctx T) (db : MemStore.DB) :
  let intPage := fst (Atoi (Query c "page" "1")) in
  let intLimit := fst (Atoi (Query c "limit" "10")) in
  let notes := MemStore.page intLimit (int_mul (int_sub intPage 1) intLimit)
                             (MemStore.rows db) in
  MemStore.rows (fst (FindNotes c db)) = MemStore.rows db
  ∧ snd (FindNotes c db)
    = match mjoin (head (MemStore.faults db)) with
      | Some f =>
          JSON StatusBadGateway
               {[ "status" := VString "error";
                  "message" := VError (ErrBackend (MemStore.fault_text f)) ]}
      | None =>
          JSON StatusOK
               {[ "status" := VString "success";
                  "results" := VInt (Z.of_nat (length notes));
                  "notes" := VNotes notes ]}
      end.
Proof.
  unfold FindNotes. mem.
  by destruct (mjoin (head (MemStore.faults db))).
Qed.

(** ** List *)

(** With a page and a limit that are at least 1 and a backend that
    answers, FindNotes sends 200 with the rows of that page in table
    order, [limit] of them at most, skipping [(page - 1) * limit]; the
    [results] field is their number, and the rows are not changed. *)
Theorem FindNotes_page {T} (c : Ctx T) (db : MemStore.DB) :
  let intPage := fst (Atoi (Query c "page" "1")) in
  let intLimit := fst (Atoi (Query c "limit" "10")) in
  let notes := take (Z.to_nat intLimit)
                    (drop (Z.to_nat ((intPage - 1) * intLimit)) (MemStore.rows db)) in
  mjoin (head (MemStore.faults db)) = None →
  1 ≤ intPage →
  1 ≤ intLimit →
  (intPage - 1) * intLimit ≤ MaxInt →
  status_of (snd (FindNotes c db)) = Some StatusOK
  ∧ notes_of (snd (FindNotes c db)) = Some (Z.of_nat (length notes), notes)
  ∧ Z.of_nat (length notes) ≤ intLimit
  ∧ MemStore.rows (fst (FindNotes c db)) = MemStore.rows db.
Proof.
  intros intPage intLimit notes Hf Hpage Hlimit Hfit.
  destruct (FindNotes_table c db) as [Hrows ->]. rewrite Hf.
  fold intPage intLimit.
  pose proof (Atoi_range (Query c "page" "1")) as Hp. fold intPage in Hp.
  assert (Hoff : int_mul (int_sub intPage 1) intLimit = (intPage - 1) * intLimit).
  { unfold int_mul, int_sub.
    rewrite (wrap64_small (intPage - 1)) by (unfold MinInt, MaxInt in *; lia).
    apply wrap64_small. unfold MinInt, MaxInt in *. nia. }
  assert (Hnotes : MemStore.page intLimit (int_mul (int_sub intPage 1) intLimit)
                                 (MemStore.rows db) = notes).
  { unfold MemStore.page. rewrite Hoff.
    destruct (0 <=? intLimit) eqn:Hl; [|apply Z.leb_gt in Hl; lia].
    destruct (0 <? (intPage - 1) * intLimit) eqn:Ho; [done|].
    apply Z.ltb_ge in Ho.
    assert ((intPage - 1) * intLimit = 0) as Hz by nia.
    unfold notes. by rewrite Hz. }
  rewrite Hnotes. repeat split; try done.
  unfold notes. rewrite length_take. lia.
Qed.

Lemma FindNotes_page_witness :
  notes_of (snd (FindNotes (Sample.bare "" {[ "page" := "2"; "limit" := "1" ]})
                           Sample.two))
    = Some (1, [Sample.noteB]).
Proof.
  pose proof (FindNotes_page (Sample.bare "" {[ "page" := "2"; "limit" := "1" ]})
                             Sample.two) as Hpage.
  cbv zeta in Hpage.
  destruct Hpage as (_ & Hnotes & _);
    [reflexivity | by vm_compute | by vm_compute | by vm_compute |].
  exact Hnotes.
Defined.

(** ** Create *)



(** A note that was created is found by a get on any text that denotes
    its id, as long as the backend does not fail on the lookup: the
    answer is 200 with the note of the create response, its two times
    cut to the microsecond. *)
Theorem create_then_get c now (db : MemStore.DB) note {T} (c' : Ctx T) :
  status_of (snd (CreateNoteHandler c now db)) = Some StatusCreated →
  note_of (snd (CreateNoteHandler c now db)) = Some note →
  mjoin (head (MemStore.faults (fst (CreateNoteHandler c now db)))) = None →
  uuid_in (Params c' "noteId") = Some (ID note) →
  snd (FindNoteById c' (fst (CreateNoteHandler c now db)))
    = JSON StatusOK
           {[ "status" := VString "success";
              "data" := VMap {[ "note" := VNote (MemStore.stored note) ]} ]}.
Proof.
  intros Hs Hnote Hf Hid.
  destruct (CreateNoteHandler_table c now db)
    as [(payload & Hb & Ht & Hc & Hfresh & Htitle & _ & Ho & Hrows & _)|[Hne _]];
    [|done].
  rewrite Ho, note_of_success in Hnote. injection Hnote as <-.
  destruct (FindNoteById_table c' (fst (CreateNoteHandler c now db)))
    as (_ & _ & ->).
  change (uuid_in (Params c' "noteId") = Some (fst (MemStore.draw db))) in Hid.
  change (fst (MemStore.draw db) ∉ ID <$> MemStore.rows db) in Hfresh.
  rewrite Hf, Hid, Hrows, filter_app, (filter_id_absent _ _ Hfresh).
  cbn [app]. rewrite filter_cons. by case_decide.
Qed.

Lemma create_then_get_witness :
  let created :=
    CreateNoteHandler (Sample.post (mkCreateNoteSchema "C" "z" "" false)) 300999
                      Sample.two in
  snd (FindNoteById (Sample.bare "{3F2C8A109B7E4C1D8A551D2E3F4A5B03}" ∅) (fst created))
    = JSON StatusOK
           {[ "status" := VString "success";
              "data" := VMap {[ "note" := VNote (mkNote Sample.id3 "C" "z" "" false 300000 300000) ]} ]}.
Proof.
  intros created.
  apply (create_then_get (Sample.post (mkCreateNoteSchema "C" "z" "" false))
                         300999 Sample.two
                         (mkNote Sample.id3 "C" "z" "" false 300999 300999)
                         (Sample.bare "{3F2C8A109B7E4C1D8A551D2E3F4A5B03}" ∅));
    reflexivity.
Defined.

(** ** Get *)

(** FindNoteById never changes the rows.  It sends 200, with a stored
    note, exactly when the backend answers and the text of the request
    denotes the id of a stored note; 404 exactly when the backend
    answers and the text denotes an id that no stored note has; 502
    exactly when the backend fails or the text denotes no id at all. *)
Theorem FindNoteById_answers {T} (c : Ctx T) (db : MemStore.DB) :
  MemStore.rows (fst (FindNoteById c db)) = MemStore.rows db
  ∧ (status_of (snd (FindNoteById c db)) = Some StatusOK
     ↔ mjoin (head (MemStore.faults db)) = None
       ∧ ∃ n, n ∈ MemStore.rows db ∧ uuid_in (Params c "noteId") = Some (ID n))
  ∧ (status_of (snd (FindNoteById c db)) = Some StatusOK →
     ∃ n, note_of (snd (FindNoteById c db)) = Some n
          ∧ n ∈ MemStore.rows db
          ∧ uuid_in (Params c "noteId") = Some (ID n))
  ∧ (status_of (snd (FindNoteById c db)) = Some StatusNotFound
     ↔ mjoin (head (MemStore.faults db)) = None
       ∧ ∃ u, uuid_in (Params c "noteId") = Some u
              ∧ ∀ n, n ∈ MemStore.rows db → ID n ≠ u)
  ∧ (status_of (snd (FindNoteById c db)) = Some StatusBadGateway
     ↔ mjoin (head (MemStore.faults db)) ≠ None
       ∨ uuid_in (Params c "noteId") = None).
Proof.
  destruct (FindNoteById_table c db) as (Hrows & _ & ->).
  split; [done|].
  destruct (mjoin (head (MemStore.faults db))) as [f|].
  { repeat split; try done; try by intros []. by left. }
  destruct (uuid_in (Params c "noteId")) as [u|].
  2:{ repeat split; try done.
      - by intros [_ (n & _ & ?)].
      - by intros [_ (u & ? & _)].
      - by right. }
  destruct (head (filter _ (MemStore.rows db))) as [n|] eqn:Hhead.
  - apply head_filter_Some in Hhead as [Hid Hin]. subst u.
    repeat split; try done.
    + by exists n.
    + intros _. by exists n.
    + intros [_ (u & Hu & Hnone)]. injection Hu as <-.
      by destruct (Hnone n Hin).
    + by intros [|].
  - pose proof (head_filter_None _ _ Hhead) as Hnone.
    repeat split; try done.
    + intros [_ (n & Hin & Hid)]. injection Hid as ->.
      by destruct (Hnone n Hin).
    + by exists u.
    + by intros [|].
Qed.

Lemma FindNoteById_answers_witness :
  ∃ n, note_of (snd (FindNoteById
                       (Sample.bare "3F2C8A10-9B7E-4C1D-8A55-1D2E3F4A5B02" ∅)
                       Sample.two)) = Some n
       ∧ n ∈ [Sample.noteA; Sample.noteB]
       ∧ uuid_in "3F2C8A10-9B7E-4C1D-8A55-1D2E3F4A5B02" = Some (ID n).
Proof.
  destruct (FindNoteById_answers
              (Sample.bare "3F2C8A10-9B7E-4C1D-8A55-1D2E3F4A5B02" ∅) Sample.two)
    as (_ & _ & Hfound & _).
  apply Hfound. reflexivity.
Defined.



(** ** List: a page that is not a numeral *)

Lemma Find_offset_not_positive limit offset (db : MemStore.DB) :
  offset ≤ 0 → Find limit offset db = Find limit 0 db.
Proof.
  intros Hoff. mem. unfold MemStore.offset_clause, MemStore.page.
  destruct (0 <? offset) eqn:Hpos; [apply Z.ltb_lt in Hpos; lia|]. done.
Qed.

(** A page that is not a numeral, and does not start with a run of
    digits too large for 64 bits, is served as the first page whenever
    the limit is not negative: the offset computed is [- limit], no
    OFFSET is sent, and the store and the answer are those of the same
    request without the page parameter. *)
Theorem FindNotes_bad_page_is_first_page {T} (c c1 : Ctx T) (db : MemStore.DB) v :
  let intLimit := fst (Atoi (Query c "limit" "10")) in
  queries c !! "page" = Some v →
  v ≠ "" →
  ¬ numeric v →
  ¬ overflowing v →
  0 ≤ intLimit →
  queries c1 = delete "page" (queries c) →
  int_mul (int_sub (fst (Atoi (Query c "page" "1"))) 1) intLimit = - intLimit
  ∧ FindNotes c db = FindNotes c1 db
  ∧ MemStore.log (fst (FindNotes c db))
    = (MemStore.log db ++ [MemStore.SelectPage (Some intLimit) None])%list.
Proof.
  intros intLimit Hv Hne Hnum Hover Hlimit Hc1.
  pose proof (Atoi_range (Query c "limit" "10")) as Hl. fold intLimit in Hl.
  assert (Hpage : fst (Atoi (Query c "page" "1")) = 0).
  { rewrite (Query_present _ _ _ _ Hv Hne). by apply Atoi_syntax. }
  assert (Hoff : int_mul (int_sub (fst (Atoi (Query c "page" "1"))) 1) intLimit
                 = - intLimit).
  { rewrite Hpage. unfold int_mul, int_sub.
    rewrite (wrap64_small (0 - 1)) by (unfold MinInt, MaxInt; lia).
    rewrite wrap64_small by (unfold MinInt, MaxInt in *; lia). lia. }
  assert (Hpage1 : Query c1 "page" "1" = "1").
  { apply Query_absent. rewrite Hc1. apply lookup_delete_eq. }
  assert (Hlimit1 : Query c1 "limit" "10" = Query c "limit" "10").
  { unfold Query. rewrite Hc1. by rewrite lookup_delete_ne. }
  assert (Hfind : Find intLimit (- intLimit) db = Find intLimit 0 db)
    by (apply Find_offset_not_positive; lia).
  split; [done|]. split.
  - unfold FindNotes. rewrite Hpage1, Hlimit1. fold intLimit.
    fold intLimit in Hoff. rewrite Hoff, Hfind.
    change (int_mul (int_sub (fst (Atoi "1")) 1) intLimit)
      with (wrap64 (0 * intLimit)).
    by rewrite Z.mul_0_l.
  - destruct (FindNotes_call c db) as [-> _]. fold intLimit.
    fold intLimit in Hoff. rewrite Hoff, Find_log.
    unfold MemStore.limit_clause, MemStore.offset_clause.
    destruct (0 <=? intLimit) eqn:H1; [|apply Z.leb_gt in H1; lia].
    destruct (0 <? - intLimit) eqn:H2; [apply Z.ltb_lt in H2; lia|]. done.
Qed.

Lemma FindNotes_bad_page_is_first_page_witness :
  let c := Sample.bare "" {[ "page" := "x"; "limit" := "1" ]} in
  let c1 := Sample.bare "" {[ "limit" := "1" ]} in
  FindNotes c Sample.two = FindNotes c1 Sample.two
  ∧ MemStore.log (fst (FindNotes c Sample.two))
    = [MemStore.SelectPage (Some 1) None]
  ∧ notes_of (snd (FindNotes c Sample.two)) = Some (1, [Sample.noteA]).
Proof.
  intros c c1.
  assert (Hnum : ¬ numeric "x").
  { intros Hnum. apply numeric_all_digits in Hnum. destruct Hnum as [Hx _].
    unfold is_digit in Hx. vm_compute in Hx. destruct Hx as [_ Hx]. by apply Hx. }
  assert (Hover : ¬ overflowing "x").
  { intros (ds & rest & Hbody & Hall & Hbig).
    destruct ds as [|d ds]; [by vm_compute in Hbig|].
    injection Hbody as <- _. destruct Hall as [Hx _].
    unfold is_digit in Hx. vm_compute in Hx. destruct Hx as [_ Hx]. by apply Hx. }
  assert (Hne : "x" ≠ "") by done.
  assert (Hlimit : 0 ≤ fst (Atoi (Query c "limit" "10"))) by by vm_compute.
  destruct (FindNotes_bad_page_is_first_page c c1 Sample.two "x"
              eq_refl Hne Hnum Hover Hlimit eq_refl) as (_ & Hsame & Hlog).
  split; [exact Hsame | split; [exact Hlog | reflexivity]].
Defined.

(** ** Update *)


(** Whatever the request and the backend, UpdateNote keeps the number of
    rows and the id and the createdAt of each one, and a row is touched
    only if the text of the request denotes its id. *)
Theorem UpdateNote_keeps_identity c now (db : MemStore.DB) :
  Forall2 (fun n n' =>
             ID n' = ID n
             ∧ CreatedAt n' = CreatedAt n
             ∧ (uuid_in (Params c "noteId") ≠ Some (ID n) → n' = n))
          (MemStore.rows db) (MemStore.rows (fst (UpdateNote c now db))).
Proof.
  destruct (UpdateNote_rows c now db)
    as [->|(p & note & _ & _ & Hid & _ & ->)].
  - by apply Forall2_self.
  - apply Forall2_fmap_self. intros n _. unfold patched.
    case_decide as Hn; [|done]. rewrite assign_updates_of.
    repeat split. intros Hne. destruct Hne. by rewrite Hn.
Qed.

Lemma UpdateNote_keeps_identity_witness :
  let c := Sample.patch Sample.id1 (mkUpdateNoteSchema "A2" "text" "work" (Some false)) in
  Forall2 (fun n n' =>
             ID n' = ID n
             ∧ CreatedAt n' = CreatedAt n
             ∧ (uuid_in Sample.id1 ≠ Some (ID n) → n' = n))
          [Sample.noteA; Sample.noteB]
          (MemStore.rows (fst (UpdateNote c 300 Sample.two))).
Proof.
  intros c. exact (UpdateNote_keeps_identity c 300 Sample.two).
Defined.





(** After an update whose lookup and write the store carries out, a get
    on any text that denotes the id of the note, served by a backend
    that answers, returns the note that the update answered with, its
    updatedAt cut to the microsecond. *)
Theorem update_then_get c now (db db1 : MemStore.DB) payload found note
        {T} (c' : Ctx T) :
  BodyParser c = inr (Some payload) →
  First (Params c "noteId") db = (db1, found, note) →
  Error found = None →
  Error (snd (fst (Updates note (updates_of payload now) db1))) = None →
  mjoin (head (MemStore.faults (fst (UpdateNote c now db)))) = None →
  uuid_in (Params c' "noteId") = Some (ID note) →
  ∃ answered,
    note_of (snd (UpdateNote c now db)) = Some answered
    ∧ UpdatedAt answered = now
    ∧ snd (FindNoteById c' (fst (UpdateNote c now db)))
      = JSON StatusOK
             {[ "status" := VString "success";
                "data" := VMap {[ "note" := VNote
                  (mkNote (ID answered) (Title answered) (Content answered)
                          (Category answered) (Published answered)
                          (CreatedAt answered) (now / 1000 * 1000)) ]} ]}.
Proof.
  intros Hb HF He Hw Hf Hid.
  destruct (First_found _ _ _ _ _ HF He) as (_ & _ & Hhead & _).
  destruct (UpdateNote_accepted c now db db1 payload found note Hb HF He Hw)
    as (Ho & Hrows & _).
  exists (MemStore.assign id (updates_of payload now) note).
  rewrite Ho at 1. rewrite note_of_success. split; [done|].
  rewrite assign_updates_of. split; [done|].
  destruct (FindNoteById_table c' (fst (UpdateNote c now db))) as (_ & _ & ->).
  rewrite Hf, Hid, Hrows.
  rewrite filter_id_fmap by apply patched_ID.
  destruct (filter _ (MemStore.rows db)) as [|r rs] eqn:Hfilter; [done|].
  cbn in Hhead. injection Hhead as ->. cbn [fmap list_fmap head].
  unfold patched. rewrite decide_True by done.
  by rewrite assign_updates_of.
Qed.

Lemma update_then_get_witness :
  let c := Sample.patch Sample.id2 (mkUpdateNoteSchema "B2" "" "" (Some true)) in
  let c' := Sample.bare "3F2C8A10-9B7E-4C1D-8A55-1D2E3F4A5B02" ∅ in
  note_of (snd (UpdateNote c 300999 Sample.two))
    = Some (mkNote Sample.id2 "B2" "y" "home" true 200000 300999)
  ∧ note_of (snd (FindNoteById c' (fst (UpdateNote c 300999 Sample.two))))
    = Some (mkNote Sample.id2 "B2" "y" "home" true 200000 300000).
Proof.
  intros c c'.
  destruct (update_then_get c 300999 Sample.two
              (fst (fst (First (Params c "noteId") Sample.two)))
              (mkUpdateNoteSchema "B2" "" "" (Some true))
              (snd (fst (First (Params c "noteId") Sample.two)))
              Sample.noteB c')
    as (answered & Hanswered & _ & Hget); try reflexivity.
  split; [reflexivity|]. rewrite Hget, note_of_success.
  assert (Heq : answered = mkNote Sample.id2 "B2" "y" "home" true 200000 300999).
  { assert (Some answered
            = Some (mkNote Sample.id2 "B2" "y" "home" true 200000 300999)) as Hs
      by (rewrite <- Hanswered; reflexivity).
    by injection Hs. }
  by rewrite Heq.
Defined.

(** ** Delete *)



(** On a backend that does not fail, once a delete on a text that
    denotes an id has been served, a get on the same text is answered
    404, and so is a second delete. *)
Theorem delete_then_not_found {T} (c : Ctx T) (db : MemStore.DB) u :
  MemStore.healthy db →
  uuid_in (Params c "noteId") = Some u →
  status_of (snd (FindNoteById c (fst (DeleteNote c db)))) = Some StatusNotFound
  ∧ status_of (snd (DeleteNote c (fst (DeleteNote c db)))) = Some StatusNotFound.
Proof.
  intros Hh Hu. unfold MemStore.healthy in Hh.
  assert (Hstate : mjoin (head (MemStore.faults (fst (DeleteNote c db)))) = None
                   ∧ filter (fun r => ID r = u)
                            (MemStore.rows (fst (DeleteNote c db))) = []).
  { unfold DeleteNote. mem. rewrite Hh, Hu.
    cbn [head mjoin option_join MemStore.rows MemStore.affected RowsAffected Error].
    destruct (filter (fun r => ID r = u) (MemStore.rows db)) as [|r rs] eqn:Hfilter.
    - cbn. by rewrite (filter_none_id _ _ Hfilter).
    - cbn. split; [done|]. apply filter_id_gone. }
  destruct Hstate as [Hf Hgone]. split.
  - destruct (FindNoteById_table c (fst (DeleteNote c db))) as (_ & _ & ->).
    by rewrite Hf, Hu, Hgone.
  - by apply (DeleteNote_none c _ u).
Qed.

Lemma delete_then_not_found_witness :
  let c := Sample.bare Sample.id1 ∅ in
  status_of (snd (FindNoteById c (fst (DeleteNote c Sample.two)))) = Some StatusNotFound
  ∧ status_of (snd (DeleteNote c (fst (DeleteNote c Sample.two)))) = Some StatusNotFound.
Proof.
  intros c. apply (delete_then_not_found c Sample.two Sample.id1); reflexivity.
Defined.

(** Deleting a note that was just created is answered 204 and leaves the
    rows that were there before the create. *)
Theorem create_then_delete c now (db : MemStore.DB) note {T} (c' : Ctx T) :
  status_of (snd (CreateNoteHandler c now db)) = Some StatusCreated →
  note_of (snd (CreateNoteHandler c now db)) = Some note →
  mjoin (head (MemStore.faults (fst (CreateNoteHandler c now db)))) = None →
  Params c' "noteId" = ID note →
  snd (DeleteNote c' (fst (CreateNoteHandler c now db))) = SendStatus StatusNoContent
  ∧ MemStore.rows (fst (DeleteNote c' (fst (CreateNoteHandler c now db))))
    = MemStore.rows db.
Proof.
  intros Hs Hnote Hf Hid.
  destruct (CreateNoteHandler_table c now db)
    as [(payload & Hb & Ht & Hc & Hfresh & Htitle & _ & Ho & Hrows & _)|[Hne _]];
    [|done].
  rewrite Ho, note_of_success in Hnote. injection Hnote as <-.
  change (Params c' "noteId" = fst (MemStore.draw db)) in Hid.
  change (fst (MemStore.draw db) ∉ ID <$> MemStore.rows db) in Hfresh.
  unfold DeleteNote. mem. rewrite Hf, Hid.
  change (uuid_out (MemStore.uuids db (MemStore.drawn db) <$> seq 0 16))
    with (fst (MemStore.draw db)) in *.
  rewrite uuid_in_drawn, Hrows.
  cbn [MemStore.rows MemStore.affected RowsAffected Error].
  rewrite !filter_app, (filter_id_absent _ _ Hfresh),
    (filter_none_id _ _ (filter_id_absent _ _ Hfresh)).
  rewrite !filter_cons. cbn [ID MemStore.stored].
  rewrite decide_True by done. rewrite decide_False by (intros Hne; by apply Hne).
  cbn. by rewrite app_nil_r.
Qed.

Lemma create_then_delete_witness :
  let created :=
    CreateNoteHandler (Sample.post (mkCreateNoteSchema "C" "z" "" false)) 300
                      Sample.two in
  snd (DeleteNote (Sample.bare Sample.id3 ∅) (fst created)) = SendStatus StatusNoContent
  ∧ MemStore.rows (fst (DeleteNote (Sample.bare Sample.id3 ∅) (fst created)))
    = [Sample.noteA; Sample.noteB].
Proof.
  intros created.
  apply (create_then_delete (Sample.post (mkCreateNoteSchema "C" "z" "" false))
                            300 Sample.two
                            (mkNote Sample.id3 "C" "z" "" false 300 300)
                            (Sample.bare Sample.id3 ∅));
    reflexivity.
Defined.

(** ** What the handlers keep true of the table *)

Lemma patched_filled id p now r : filled r → filled (patched id p now r).
Proof.
  unfold filled, patched. intros [Ht Hc]. case_decide; [|done].
  rewrite assign_updates_of. cbn. split; by case_decide.
Qed.

Lemma patched_Title id p now r :
  Title (patched id p now r)
    = if decide (ID r = id ∧ uTitle p ≠ "") then uTitle p else Title r.
Proof.
  unfold patched. destruct (decide (ID r = id)).
  - rewrite assign_updates_of. cbn.
    destruct (decide (uTitle p ≠ "")); case_decide; tauto.
  - case_decide; tauto.
Qed.

Lemma patched_titles_NoDup id p now (rs : list Note) :
  NoDup (ID <$> rs) →
  NoDup (Title <$> rs) →
  ¬ MemStore.title_clash id (updates_of p now) rs →
  NoDup (Title <$> (patched id p now <$> rs)).
Proof.
  rewrite title_clash_updates_of, Exists_exists.
  intros Hids Htitles Hfree.
  assert (Hother : ∀ r, r ∈ rs → uTitle p ≠ "" → ID r ≠ id → Title r ≠ uTitle p)
    by (intros r Hr Hp Hne Ht; apply Hfree; eauto).
  clear Hfree.
  induction rs as [|r rs IH]; [constructor|].
  rewrite !fmap_cons in *.
  apply NoDup_cons in Hids as [Hid Hids].
  apply NoDup_cons in Htitles as [Htitle Htitles].
  apply NoDup_cons. split.
  2:{ apply IH; [done..|]. intros r' Hr'. apply Hother. by apply list_elem_of_further. }
  intros Hin. apply list_elem_of_fmap in Hin as (r1 & Heq & Hr1).
  apply list_elem_of_fmap in Hr1 as (r' & -> & Hr').
  rewrite !patched_Title in Heq.
  assert (Hne : ID r' ≠ ID r).
  { intros Heq'. apply Hid, list_elem_of_fmap. by exists r'. }
  assert (Hnt : Title r' ≠ Title r).
  { intros Heq'. apply Htitle, list_elem_of_fmap. by exists r'. }
  destruct (decide (ID r = id ∧ uTitle p ≠ "")) as [[Hr Hp]|Hno],
           (decide (ID r' = id ∧ uTitle p ≠ "")) as [[Hr0 Hp']|Hno'].
  - congruence.
  - apply (Hother r'); [by apply list_elem_of_further | done | congruence | done].
  - apply (Hother r); [apply list_elem_of_here | done | | done].
    intros Hr. apply Hno. done.
  - congruence.
Qed.

Lemma patched_ids id p now (rs : list Note) :
  ID <$> (patched id p now <$> rs) = ID <$> rs.
Proof.
  rewrite <- list_fmap_compose. apply list_fmap_ext.
  intros i r _. apply patched_ID.
Qed.

(** Title and content are never empty in the table: if every stored note
    has both, so does every stored note after any request to any of the
    five handlers, whatever the backend does. *)
Theorem handlers_keep_filled now (db : MemStore.DB) :
  Forall filled (MemStore.rows db) →
  (∀ c, Forall filled (MemStore.rows (fst (CreateNoteHandler c now db))))
  ∧ (∀ T (c : Ctx T), Forall filled (MemStore.rows (fst (FindNotes c db))))
  ∧ (∀ c, Forall filled (MemStore.rows (fst (UpdateNote c now db))))
  ∧ (∀ T (c : Ctx T), Forall filled (MemStore.rows (fst (FindNoteById c db))))
  ∧ (∀ T (c : Ctx T), Forall filled (MemStore.rows (fst (DeleteNote c db)))).
Proof.
  intros Hall. split; [|split; [|split; [|split]]].
  - intros c. destruct (CreateNoteHandler_table c now db)
      as [(payload & _ & Ht & Hc & _ & _ & _ & _ & -> & _)| [_ ->]]; [|done].
    apply Forall_app. split; [done|]. by apply Forall_singleton.
  - intros T c. by destruct (FindNotes_table c db) as [-> _].
  - intros c. destruct (UpdateNote_rows c now db)
      as [->|(p & note & _ & _ & _ & _ & ->)]; [done|].
    apply Forall_fmap. eapply Forall_impl; [done|].
    intros r. apply patched_filled.
  - intros T c. by destruct (FindNoteById_table c db) as [-> _].
  - intros T c.
    destruct (DeleteNote_table c db)
      as [(_ & _ & _ & u & _ & _ & ->)|[(_ & -> & _)|(_ & -> & _)]]; [|done..].
    apply Forall_forall. intros r Hr. apply list_elem_of_filter in Hr as [_ Hr].
    by eapply Forall_forall in Hall.
Qed.

Lemma handlers_keep_filled_witness :
  Forall filled
    (MemStore.rows
       (fst (UpdateNote (Sample.patch Sample.id1 (mkUpdateNoteSchema "" "" "" None))
                        300 Sample.two))).
Proof.
  destruct (handlers_keep_filled 300 Sample.two) as (_ & _ & Hupdate & _).
  - repeat constructor; done.
  - apply Hupdate.
Defined.

(** Ids and titles stay unique: if no two stored notes share an id or a
    title, the same holds after any request to any of the five handlers,
    whatever the backend does. *)
Theorem handlers_keep_unique_keys now (db : MemStore.DB) :
  unique_keys (MemStore.rows db) →
  (∀ c, unique_keys (MemStore.rows (fst (CreateNoteHandler c now db))))
  ∧ (∀ T (c : Ctx T), unique_keys (MemStore.rows (fst (FindNotes c db))))
  ∧ (∀ c, unique_keys (MemStore.rows (fst (UpdateNote c now db))))
  ∧ (∀ T (c : Ctx T), unique_keys (MemStore.rows (fst (FindNoteById c db))))
  ∧ (∀ T (c : Ctx T), unique_keys (MemStore.rows (fst (DeleteNote c db)))).
Proof.
  intros [Hids Htitles]. split; [|split; [|split; [|split]]].
  - intros c. destruct (CreateNoteHandler_table c now db)
      as [(payload & _ & _ & _ & Hid & Htitle & _ & _ & -> & _)| [_ ->]]; [|done].
    unfold unique_keys. rewrite !fmap_app, !NoDup_app. cbn [fmap list_fmap].
    repeat split; try done; try apply NoDup_singleton.
    + intros x Hx Hin. apply list_elem_of_singleton in Hin as ->. done.
    + intros x Hx Hin. apply list_elem_of_singleton in Hin as ->. done.
  - intros T c. by destruct (FindNotes_table c db) as [-> _].
  - intros c.
    destruct (UpdateNote_rows c now db)
      as [->|(p & note & _ & _ & _ & Hfree & ->)]; [done|].
    split; [by rewrite patched_ids | by apply patched_titles_NoDup].
  - intros T c. by destruct (FindNoteById_table c db) as [-> _].
  - intros T c.
    destruct (DeleteNote_table c db)
      as [(_ & _ & _ & u & _ & _ & ->)|[(_ & -> & _)|(_ & -> & _)]]; [|done..].
    split; [apply (sublist_NoDup _ _ Hids) | apply (sublist_NoDup _ _ Htitles)];
      apply fmap_sublist, sublist_filter.
Qed.

Lemma handlers_keep_unique_keys_witness :
  unique_keys
    (MemStore.rows
       (fst (CreateNoteHandler (Sample.post (mkCreateNoteSchema "C" "z" "" false))
                               300 Sample.two))).
Proof.
  destruct (handlers_keep_unique_keys 300 Sample.two) as (Hcreate & _).
  - split; by apply (bool_decide_unpack _).
  - apply Hcreate.
Defined.

(** A create request with a title that a stored note holds is answered
    409 when the backend answers, and nothing is stored; so a second
    create with the title of a note just created is a conflict. *)
Theorem CreateNoteHandler_title_taken c now (db : MemStore.DB) payload :
  BodyParser c = inr (Some payload) →
  cTitle payload ≠ "" →
  cContent payload ≠ "" →
  mjoin (head (MemStore.faults db)) = None →
  (∃ n, n ∈ MemStore.rows db ∧ Title n = cTitle payload) →
  snd (CreateNoteHandler c now db)
    = JSON StatusConflict
           {[ "status" := VString "fail";
              "message" := VString "Title already exists, please use another title" ]}
  ∧ MemStore.rows (fst (CreateNoteHandler c now db)) = MemStore.rows db.
Proof.
  intros Hb Ht Hc Hf (n & Hin & Htitle).
  assert (Hv : ValidateStruct (Some payload) = Some [])
    by by apply ValidateStruct_valid.
  unfold CreateNoteHandler. rewrite Hb, Hv. mem. rewrite Hf.
  cbn [MemStore.rows MemStore.uuids MemStore.drawn newNote_of Title].
  case_decide as Htaken; [done|].
  destruct Htaken. apply list_elem_of_fmap. by exists n.
Qed.

Lemma CreateNoteHandler_title_taken_witness :
  let first :=
    CreateNoteHandler (Sample.post (mkCreateNoteSchema "C" "z" "" false)) 300
                      Sample.two in
  let second :=
    CreateNoteHandler (Sample.post (mkCreateNoteSchema "C" "other" "x" true)) 400
                      (fst first) in
  status_of (snd first) = Some StatusCreated
  ∧ status_of (snd second) = Some StatusConflict
  ∧ MemStore.rows (fst second) = MemStore.rows (fst first).
Proof.
  intros first second. split; [reflexivity|].
  destruct (CreateNoteHandler_title_taken
              (Sample.post (mkCreateNoteSchema "C" "other" "x" true)) 400 (fst first)
              (mkCreateNoteSchema "C" "other" "x" true))
    as [Ho Hrows]; [reflexivity | done | done | reflexivity | |].
  - exists (mkNote Sample.id3 "C" "z" "" false 0 0). split; [|reflexivity].
    apply list_elem_of_In. vm_compute. do 2 right. by left.
  - split; [|exact Hrows]. unfold second. by rewrite Ho.
Defined.
(** ** Validation *)

(** ValidateStruct on a create payload reports a [required] violation
    for the title exactly when the title is empty and one for the content
    exactly when the content is empty, the title first, and nothing else;
    category and published play no part. *)
Theorem ValidateStruct_create_violations (p : CreateNoteSchema) :
  let title := mkErrorResponse "CreateNoteSchema.Title" "required" "" in
  let content := mkErrorResponse "CreateNoteSchema.Content" "required" "" in
  ∃ errors,
    ValidateStruct (Some p) = Some errors
    ∧ errors `sublist_of` [title; content]
    ∧ (title ∈ errors ↔ cTitle p = "")
    ∧ (content ∈ errors ↔ cContent p = "")
    ∧ (errors = [] ↔ cTitle p ≠ "" ∧ cContent p ≠ "").
Proof.
  intros title content. eexists. split; [apply ValidateStruct_create|].
  fold title content.
  destruct (decide (cTitle p = "")) as [Ht|Ht],
           (decide (cContent p = "")) as [Hc|Hc]; cbn [app].
  - repeat split; try done.
    + intros _. apply list_elem_of_here.
    + intros _. apply list_elem_of_further, list_elem_of_here.
    + by intros [].
  - split; [apply sublist_skip, sublist_nil_l|].
    repeat split; try done.
    + intros _. apply list_elem_of_here.
    + intros Hin. apply list_elem_of_singleton in Hin. discriminate.
    + by intros [].
  - split; [apply sublist_cons, sublist_skip, sublist_nil|].
    repeat split; try done.
    + intros Hin. apply list_elem_of_singleton in Hin. discriminate.
    + intros _. apply list_elem_of_here.
    + by intros [].
  - split; [apply sublist_nil_l|].
    repeat split; try done.
    + intros Hin. by apply elem_of_nil in Hin.
    + intros Hin. by apply elem_of_nil in Hin.
Qed.

Lemma ValidateStruct_create_violations_witness :
  ValidateStruct (Some (mkCreateNoteSchema "" "" "home" true))
    = Some [mkErrorResponse "CreateNoteSchema.Title" "required" "";
            mkErrorResponse "CreateNoteSchema.Content" "required" ""].
Proof.
  destruct (ValidateStruct_create_violations (mkCreateNoteSchema "" "" "home" true))
    as (errors & Hv & _).
  rewrite Hv. f_equal. by injection Hv as <-.
Defined.
